(** * A shallow embedding of [exercice.py]: a 16-bit PCM WAVE codec

    The Python module builds WAVE headers, converts floating-point
    samples to little-endian 16-bit integers and back, interleaves
    channels, and writes and reads whole files.  Python integers are
    modelled by [Z], Python floats by IEEE 754 binary64 values
    ([spec_float] with a 53-bit mantissa), [bytes] by [list byte], and
    exceptions by an error monad. *)

From Stdlib Require Import ZArith List String Ascii Bool Lia.
From Stdlib Require Import Strings.Byte Numbers.DecimalString.
From Stdlib Require Import Decimal DecimalPos DecimalN.
From Stdlib Require Import QArith Qabs Qpower Lqa.
From Stdlib Require Import Floats.SpecFloat.
Import ListNotations.

Local Open Scope Z_scope.

(** ** Exceptions *)

(** The exceptions the modelled code can raise. *)
Inductive exn : Type :=
| StructError        (* struct.error *)
| OverflowError      (* int(inf), float(huge int) *)
| ValueError         (* int(nan) *)
| ZeroDivisionError  (* x // 0 *)
| IndexError         (* list index out of range *)
| TypeError.         (* wrong number of constructor arguments *)

Inductive result (A : Type) : Type :=
| Ok (a : A)
| Raise (e : exn).

Arguments Ok {A} a.
Arguments Raise {A} e.

Definition bind {A B : Type} (r : result A) (k : A -> result B) : result B :=
  match r with
  | Ok a => k a
  | Raise e => Raise e
  end.

Notation "x <- r ;; k" := (bind r (fun x => k))
  (at level 61, r at next level, right associativity).
Notation "' p <- r ;; k" := (bind r (fun x => let p := x in k))
  (at level 61, p pattern, r at next level, right associativity).

(** [mapM f l] runs [f] on the elements of [l] from left to right and
    stops at the first exception, as a list comprehension does. *)
Fixpoint mapM {A B : Type} (f : A -> result B) (l : list A) : result (list B) :=
  match l with
  | [] => Ok []
  | a :: l' => b <- f a ;; bs <- mapM f l' ;; Ok (b :: bs)
  end.

(** ** Bytes *)

Definition byte_of_Z (z : Z) : byte :=
  match Byte.of_N (Z.to_N (z mod 256)) with
  | Some b => b
  | None => x00
  end.

Definition Z_of_byte (b : byte) : Z := Z.of_N (Byte.to_N b).

Definition bytes_of_string (s : string) : list byte := list_byte_of_string s.

(** ** The [struct] module

    Only what the program uses is modelled: the byte-order prefix, the
    format characters [s], [h], [H] and [I], repeat counts and
    whitespace.  The host is taken to be little-endian with a 2-byte
    [short] and a 4-byte [int], so that native mode differs from
    standard mode only by its alignment padding. *)
Module PyStruct.

Inductive mode : Type :=
| Native      (* no prefix, or '@': native alignment *)
| Little      (* '<', and '=' on this host *)
| Big.        (* '>' and '!' *)

Inductive code : Type := Code_s | Code_h | Code_H | Code_I.

Definition item : Type := (N * code)%type.

Definition digit_of (c : ascii) : option N :=
  let n := N_of_ascii c in
  if ((48 <=? n) && (n <=? 57))%N then Some (n - 48)%N else None.

Definition is_space (c : ascii) : bool :=
  let n := N_of_ascii c in
  ((n =? 32) || ((9 <=? n) && (n <=? 13)))%N.

Definition code_of (c : ascii) : option code :=
  match c with
  | "s" => Some Code_s
  | "h" => Some Code_h
  | "H" => Some Code_H
  | "I" => Some Code_I
  | _ => None
  end%char.

(** [cnt] is the repeat count read so far, if any digit was read. *)
Fixpoint parse_items (s : string) (cnt : option N) : result (list item) :=
  match s with
  | EmptyString =>
      match cnt with
      | None => Ok []
      | Some _ => Raise StructError
      end
  | String c rest =>
      match digit_of c with
      | Some d =>
          parse_items rest
            (Some (10 * (match cnt with Some n => n | None => 0 end) + d)%N)
      | None =>
          match cnt, is_space c with
          | None, true => parse_items rest None
          | _, _ =>
              match code_of c with
              | Some k =>
                  items <- parse_items rest None ;;
                  Ok ((match cnt with Some n => n | None => 1%N end, k) :: items)
              | None => Raise StructError
              end
          end
      end
  end.

Definition parse_format (fmt : string) : result (mode * list item) :=
  match fmt with
  | String "<" rest => items <- parse_items rest None ;; Ok (Little, items)
  | String "=" rest => items <- parse_items rest None ;; Ok (Little, items)
  | String ">" rest => items <- parse_items rest None ;; Ok (Big, items)
  | String "!" rest => items <- parse_items rest None ;; Ok (Big, items)
  | String "@" rest => items <- parse_items rest None ;; Ok (Native, items)
  | _ => items <- parse_items fmt None ;; Ok (Native, items)
  end%char.

Definition code_size (k : code) : Z :=
  match k with
  | Code_s => 1
  | Code_h | Code_H => 2
  | Code_I => 4
  end.

Definition code_align (m : mode) (k : code) : Z :=
  match m with
  | Native => code_size k
  | _ => 1
  end.

(** Number of padding bytes that bring offset [off] to a multiple of [a]. *)
Definition padding (off a : Z) : Z := (- off) mod a.

Fixpoint size_items (m : mode) (items : list item) (off : Z) : Z :=
  match items with
  | [] => off
  | (n, k) :: rest =>
      let off' := off + padding off (code_align m k) in
      size_items m rest (off' + Z.of_N n * code_size k)
  end.

Definition calcsize (fmt : string) : result Z :=
  '(m, items) <- parse_format fmt ;;
  Ok (size_items m items 0).

(** Values passed to [pack] and returned by [unpack]. *)
Inductive pyval : Type :=
| PyBytes (b : list byte)
| PyInt (z : Z).

Definition in_range (k : code) (z : Z) : bool :=
  match k with
  | Code_s => true
  | Code_h => (-32768 <=? z) && (z <=? 32767)
  | Code_H => (0 <=? z) && (z <=? 65535)
  | Code_I => (0 <=? z) && (z <=? 4294967295)
  end.

(** The [n] low-order bytes of [z], least significant first (two's
    complement for a negative [z]). *)
Fixpoint le_bytes (n : nat) (z : Z) : list byte :=
  match n with
  | O => []
  | S n' => byte_of_Z z :: le_bytes n' (z / 256)
  end.

Fixpoint le_value (bs : list byte) : Z :=
  match bs with
  | [] => 0
  | b :: rest => Z_of_byte b + 256 * le_value rest
  end.

Definition zeros (n : Z) : list byte := repeat x00 (Z.to_nat n).

Definition pack_int (m : mode) (k : code) (v : pyval) : result (list byte) :=
  match v with
  | PyInt z =>
      if in_range k z then
        let bs := le_bytes (Z.to_nat (code_size k)) z in
        Ok (match m with Big => List.rev bs | _ => bs end)
      else Raise StructError
  | PyBytes _ => Raise StructError
  end.

(** [s] copies at most [n] bytes and pads with zero bytes. *)
Definition pack_s (n : N) (v : pyval) : result (list byte) :=
  match v with
  | PyBytes b =>
      Ok (firstn (N.to_nat n) b ++ repeat x00 (N.to_nat n - List.length b))
  | PyInt _ => Raise StructError
  end.

Fixpoint pack_items (m : mode) (items : list item) (args : list pyval)
    (off : Z) : result (list byte) :=
  match items with
  | [] =>
      match args with
      | [] => Ok []
      | _ :: _ => Raise StructError
      end
  | (n, k) :: rest =>
      let pad := padding off (code_align m k) in
      let off' := off + pad + Z.of_N n * code_size k in
      match k with
      | Code_s =>
          match args with
          | v :: args' =>
              b <- pack_s n v ;;
              bs <- pack_items m rest args' off' ;;
              Ok (zeros pad ++ b ++ bs)
          | [] => Raise StructError
          end
      | _ =>
          let cnt := N.to_nat n in
          if (List.length args <? cnt)%nat then Raise StructError
          else
            b <- mapM (pack_int m k) (firstn cnt args) ;;
            bs <- pack_items m rest (skipn cnt args) off' ;;
            Ok (zeros pad ++ List.concat b ++ bs)
      end
  end.

(** [struct.Struct(fmt).pack(...)] *)
Definition pack (fmt : string) (args : list pyval) : result (list byte) :=
  '(m, items) <- parse_format fmt ;;
  pack_items m items args 0.

Definition unpack_int (m : mode) (k : code) (bs : list byte) : pyval :=
  let u := le_value (match m with Big => List.rev bs | _ => bs end) in
  PyInt (match k with
         | Code_h => if u <? 32768 then u else u - 65536
         | _ => u
         end).

Fixpoint unpack_ints (m : mode) (k : code) (cnt : nat) (data : list byte)
    : list pyval :=
  match cnt with
  | O => []
  | S cnt' =>
      let w := Z.to_nat (code_size k) in
      unpack_int m k (firstn w data) :: unpack_ints m k cnt' (skipn w data)
  end.

Fixpoint unpack_items (m : mode) (items : list item) (data : list byte)
    (off : Z) : list pyval :=
  match items with
  | [] => []
  | (n, k) :: rest =>
      let pad := padding off (code_align m k) in
      let len := Z.of_N n * code_size k in
      let data' := skipn (Z.to_nat pad) data in
      let here := firstn (Z.to_nat len) data' in
      let after := skipn (Z.to_nat len) data' in
      match k with
      | Code_s => [PyBytes here]
      | _ => unpack_ints m k (N.to_nat n) here
      end ++ unpack_items m rest after (off + pad + len)
  end.

(** [struct.Struct(fmt).unpack(data)]; the buffer must hold exactly
    [calcsize fmt] bytes. *)
Definition unpack (fmt : string) (data : list byte) : result (list pyval) :=
  '(m, items) <- parse_format fmt ;;
  if Z.of_nat (List.length data) =? size_items m items 0
  then Ok (unpack_items m items data 0)
  else Raise StructError.

End PyStruct.

(** ** Module constants *)

Definition SAMPLING_FREQ : Z := 44100.
Definition SAMPLE_BITS : Z := 16.
Definition SAMPLE_WIDTH : Z := SAMPLE_BITS / 8.
Definition MAX_SAMPLE_VALUE : Z := 2 ^ (SAMPLE_BITS - 1) - 1.

Local Open Scope string_scope.

Definition RIFF_HEADER_STRUCT : string := "4sI 4s".
Definition FORMAT_HEADER_STRUCT : string := "4sI HHIIHH".
Definition DATA_HEADER_STRUCT : string := "4sI".
Definition WAVE_FILE_HEADERS_STRUCT : string :=
  "<" ++ RIFF_HEADER_STRUCT ++ FORMAT_HEADER_STRUCT ++ DATA_HEADER_STRUCT.

Local Close Scope string_scope.

(** ** Headers *)

Record WaveFileHeaders : Type := {
  riff_id : list byte;
  file_size : Z;
  wave : list byte;
  fmt_id : list byte;
  fmt_size : Z;
  wav_type : Z;
  num_channels : Z;
  sampling_freq : Z;
  bytes_per_second : Z;
  bytes_per_sample : Z;
  sample_bits : Z;
  data_id : list byte;
  data_size : Z
}.

Definition create_headers (num_samples : Z) : result WaveFileHeaders :=
  let data_size := num_samples * SAMPLE_WIDTH in
  headers_len <- PyStruct.calcsize WAVE_FILE_HEADERS_STRUCT ;;
  let riff_file_size := headers_len - 8 + data_size in
  format_len <- PyStruct.calcsize FORMAT_HEADER_STRUCT ;;
  Ok {| riff_id := bytes_of_string "RIFF";
        file_size := riff_file_size;
        wave := bytes_of_string "WAVE";
        fmt_id := bytes_of_string "fmt ";
        fmt_size := format_len - 8;
        wav_type := 1;
        num_channels := 2;
        sampling_freq := SAMPLING_FREQ;
        bytes_per_second := SAMPLING_FREQ * SAMPLE_WIDTH;
        bytes_per_sample := SAMPLE_WIDTH;
        sample_bits := SAMPLE_BITS;
        data_id := bytes_of_string "data";
        data_size := data_size |}.

Import PyStruct.

Definition values_of_headers (h : WaveFileHeaders) : list pyval :=
  [ PyBytes (riff_id h); PyInt (file_size h); PyBytes (wave h);
    PyBytes (fmt_id h); PyInt (fmt_size h); PyInt (wav_type h);
    PyInt (num_channels h); PyInt (sampling_freq h);
    PyInt (bytes_per_second h); PyInt (bytes_per_sample h);
    PyInt (sample_bits h); PyBytes (data_id h); PyInt (data_size h) ].

(** The constructor call of [WaveFileHeaders] on an unpacked tuple:
    thirteen positional arguments, typed here as the header format
    produces them. *)
Definition headers_of_values (vs : list pyval) : result WaveFileHeaders :=
  match vs with
  | [ PyBytes a; PyInt b; PyBytes c; PyBytes d; PyInt e; PyInt f; PyInt g;
      PyInt h; PyInt i; PyInt j; PyInt k; PyBytes l; PyInt m ] =>
      Ok {| riff_id := a; file_size := b; wave := c; fmt_id := d;
            fmt_size := e; wav_type := f; num_channels := g;
            sampling_freq := h; bytes_per_second := i;
            bytes_per_sample := j; sample_bits := k; data_id := l;
            data_size := m |}
  | _ => Raise TypeError
  end.

(** ** Floats and integers *)

Definition prec : Z := 53.
Definition emax : Z := 1024.

Definition float : Type := spec_float.

(** [float(z)]: the nearest binary64 value, or [OverflowError]. *)
Definition float_of_int (z : Z) : result float :=
  match binary_normalize prec emax z 0 false with
  | S754_infinity _ => Raise OverflowError
  | f => Ok f
  end.

(** [int(f)]: truncation toward zero. *)
Definition int_of_float (f : float) : result Z :=
  match f with
  | S754_zero _ => Ok 0
  | S754_infinity _ => Raise OverflowError
  | S754_nan => Raise ValueError
  | S754_finite s m e =>
      let a := Z.shiftl (Z.pos m) e in
      Ok (if s then - a else a)
  end.

(** Powers of two with an integer exponent, as rational numbers. *)
Definition pow2 (z : Z) : Q := ((2 # 1) ^ z)%Q.

(** The rational number [m * 2^e] a finite float stands for (0 for the
    others). *)
Definition SF2Q (f : float) : Q :=
  match f with
  | S754_finite s m e =>
      let v := (inject_Z (Z.pos m) * pow2 e)%Q in
      if s then Qopp v else v
  | _ => 0%Q
  end.

(** [x * n] for a float [x] and an integer [n]. *)
Definition float_mul_int (x : float) (n : Z) : result float :=
  y <- float_of_int n ;;
  Ok (SFmul prec emax x y).

(** [x / n] for a float [x] and an integer [n]. *)
Definition float_div_int (x : float) (n : Z) : result float :=
  y <- float_of_int n ;;
  match y with
  | S754_zero _ => Raise ZeroDivisionError
  | _ => Ok (SFdiv prec emax x y)
  end.

(** [str(z)] for an integer, as an f-string inserts it. *)
Definition str_int (z : Z) : string := NilZero.string_of_int (Z.to_int z).

Definition len {A : Type} (l : list A) : Z := Z.of_nat (List.length l).

(** The format [f"<{n}h"]. *)
Definition shorts_format (n : Z) : string :=
  ("<" ++ str_int n ++ "h")%string.

(** ** Sample conversion *)

(** [int(sample * MAX_SAMPLE_VALUE)] *)
Definition int_sample (sample : float) : result Z :=
  x <- float_mul_int sample MAX_SAMPLE_VALUE ;;
  int_of_float x.

Definition convert_to_bytes (samples : list float) : result (list byte) :=
  int_samples <- mapM int_sample samples ;;
  pack (shorts_format (len samples)) (map PyInt int_samples).

(** [float(value) / MAX_SAMPLE_VALUE] *)
Definition float_sample (value : Z) : result float :=
  x <- float_of_int value ;;
  float_div_int x MAX_SAMPLE_VALUE.

Definition convert_to_samples (sample_bytes : list Z) : result (list float) :=
  mapM float_sample sample_bytes.

(** ** Files

    A file is represented by its contents, and opening, reading and
    writing it are taken to succeed.  [write_wave_file] returns the
    contents of the file it writes, [read_wave_file] takes the contents
    of the file it reads. *)

Definition write_wave_file (samples : list float) : result (list byte) :=
  headers <- create_headers (len samples) ;;
  headers_bytes <- pack WAVE_FILE_HEADERS_STRUCT (values_of_headers headers) ;;
  data_bytes <- convert_to_bytes samples ;;
  Ok (headers_bytes ++ data_bytes).

(** [in_file.read(n)]: at most [n] bytes, and what is left of the file. *)
Definition file_read (n : Z) (content : list byte) : list byte * list byte :=
  (firstn (Z.to_nat n) content, skipn (Z.to_nat n) content).

(** The integers of an unpacked tuple. *)
Definition ints_of_values (vs : list pyval) : result (list Z) :=
  mapM (fun v => match v with
                 | PyInt z => Ok z
                 | PyBytes _ => Raise TypeError
                 end) vs.

Definition read_wave_file (content : list byte)
    : result (WaveFileHeaders * list float) :=
  headers_len <- calcsize WAVE_FILE_HEADERS_STRUCT ;;
  let '(header_bytes, content) := file_read headers_len content in
  values <- unpack WAVE_FILE_HEADERS_STRUCT header_bytes ;;
  header_data <- headers_of_values values ;;
  let sample_count := data_size header_data / 2 in
  let '(raw_bytes, _) := file_read (sample_count * 2) content in
  values <- unpack (shorts_format sample_count) raw_bytes ;;
  sample_bytes <- ints_of_values values ;;
  samples <- convert_to_samples sample_bytes ;;
  Ok (header_data, samples).

(** ** Channels *)

Section Channels.
Context {A : Type}.

(** One step of [zip]: the next element of every sequence, or [None]
    as soon as one of them is exhausted. *)
Fixpoint heads (channels : list (list A)) : option (list A * list (list A)) :=
  match channels with
  | [] => Some ([], [])
  | [] :: _ => None
  | (x :: t) :: rest =>
      match heads rest with
      | Some (hs, ts) => Some (x :: hs, t :: ts)
      | None => None
      end
  end.

Fixpoint zip_steps (fuel : nat) (channels : list (list A)) : list (list A) :=
  match fuel with
  | O => []
  | S fuel' =>
      match heads channels with
      | Some (hs, ts) => hs :: zip_steps fuel' ts
      | None => []
      end
  end.

(** [zip] over all the channels; the first sequence bounds the number
    of tuples, and no sequence at all gives no tuple. *)
Definition zip_star (channels : list (list A)) : list (list A) :=
  match channels with
  | [] => []
  | first :: _ => zip_steps (List.length first) channels
  end.

Definition merge_channels (channels : list (list A)) : list A :=
  fold_left (fun final_list values => final_list ++ values)
            (zip_star channels) [].

(** [range(n)] *)
Definition range (n : Z) : list Z := map Z.of_nat (seq 0 (Z.to_nat n)).

(** [l[i]], negative indices counting from the end. *)
Definition getitem {B : Type} (l : list B) (i : Z) : result B :=
  let i' := if i <? 0 then i + len l else i in
  if i' <? 0 then Raise IndexError
  else match nth_error l (Z.to_nat i') with
       | Some x => Ok x
       | None => Raise IndexError
       end.

(** [l[i] = v] on a list already holding index [i]. *)
Fixpoint set_nth {B : Type} (l : list B) (i : nat) (v : B) : list B :=
  match l, i with
  | [], _ => []
  | _ :: t, O => v :: t
  | x :: t, S i' => x :: set_nth t i' v
  end.

(** [final_list[j].append(x)] *)
Definition append_at (final_list : list (list A)) (j : Z) (x : A)
    : result (list (list A)) :=
  row <- getitem final_list j ;;
  let j' := if j <? 0 then j + len final_list else j in
  Ok (set_nth final_list (Z.to_nat j') (row ++ [x])).

(** A [for] loop over [l] threading the state [s]. *)
Fixpoint for_each {S : Type} (l : list Z) (body : Z -> S -> result S) (s : S)
    : result S :=
  match l with
  | [] => Ok s
  | i :: l' => s' <- body i s ;; for_each l' body s'
  end.

Definition floordiv (a b : Z) : result Z :=
  if b =? 0 then Raise ZeroDivisionError else Ok (a / b).

Definition separate_channels (samples : list A) (num_channels : Z)
    : result (list (list A)) :=
  let final_list := repeat [] (Z.to_nat num_channels) in
  rows <- floordiv (len samples) num_channels ;;
  for_each (range rows)
    (fun i final_list =>
       for_each (range num_channels)
         (fun j final_list =>
            x <- getitem samples (num_channels * i + j) ;;
            append_at final_list j x)
         final_list)
    final_list.

End Channels.

(** ** Sample data used in the statements *)

(** The floats 0.5, 2.0 and 1.0. *)
Definition float_half : float := S754_finite false 4503599627370496 (-53).
Definition float_two : float := S754_finite false 4503599627370496 (-51).
Definition float_one : float := S754_finite false 4503599627370496 (-52).

(** The header [create_headers] returns once its two [calcsize] calls are
    evaluated, as a function of the two sizes it computes. *)
Definition headers_with_sizes (riff_file_size data_size : Z) : WaveFileHeaders :=
  {| riff_id := bytes_of_string "RIFF";
     file_size := riff_file_size;
     wave := bytes_of_string "WAVE";
     fmt_id := bytes_of_string "fmt ";
     fmt_size := 16;
     wav_type := 1;
     num_channels := 2;
     sampling_freq := 44100;
     bytes_per_second := 88200;
     bytes_per_sample := 2;
     sample_bits := 16;
     data_id := bytes_of_string "data";
     data_size := data_size |}.

(** Its 44 bytes on disk. *)
Definition header_bytes (riff_file_size data_size : Z) : list byte :=
  bytes_of_string "RIFF" ++ le_bytes 4 riff_file_size
  ++ bytes_of_string "WAVEfmt " ++ le_bytes 4 16 ++ le_bytes 2 1
  ++ le_bytes 2 2 ++ le_bytes 4 44100 ++ le_bytes 4 88200
  ++ le_bytes 2 2 ++ le_bytes 2 16 ++ bytes_of_string "data"
  ++ le_bytes 4 data_size.

(** A 44-byte file: a header that declares one byte of data, and no data. *)
Definition odd_size_file : list byte := header_bytes 37 1.

(** A 46-byte file: a header that declares four bytes of data, and two
    bytes of data. *)
Definition truncated_file : list byte := header_bytes 40 4 ++ [x00; x00].

(** A 46-byte file whose only sample is the 16-bit integer -32768. *)
Definition min_sample_file : list byte := header_bytes 38 2 ++ [x00; x80].

(** ** Notions used to state and prove the rounding properties *)

(** The position of the fraction [r / den], with [0 <= r < den],
    relative to one half. *)
Definition loc_of (r den : Z) : location :=
  if r =? 0 then loc_Exact else loc_Inexact (Z.compare (2 * r) den).

(** The float of sign [sx] and magnitude [R * 2^e] that rounding
    returns for a mantissa [R] of at most 54 bits. *)
Definition rounded (sx : bool) (R e : Z) : float :=
  if R =? 0 then S754_zero sx
  else if R <? 2 ^ 53 then S754_finite sx (Z.to_pos R) e
  else S754_finite sx (Z.to_pos (R / 2)) (e + 1).

(** The rational [q] with the sign [sx]. *)
Definition signed (sx : bool) (q : Q) : Q := if sx then - q else q.

(** The mantissa of the float 32767.0, whose exponent is -38. *)
Definition max_sample_mantissa : positive := Z.to_pos (32767 * 2 ^ 38).

(** A sample in [-1.0, 1.0]: a well-formed binary64 value between the
    floats -1.0 and 1.0. *)
Definition unit_sample (s : float) : Prop :=
  valid_binary prec emax s = true
  /\ SFleb (SFopp float_one) s = true
  /\ SFleb s float_one = true.

(** ** Notions used to state and prove the channel properties *)

Section Columns.
Context {A : Type}.

(** [cons_all hs ts] puts each element of [hs] in front of the
    matching list of [ts]. *)
Fixpoint cons_all (hs : list A) (ts : list (list A)) : list (list A) :=
  match hs, ts with
  | h :: hs', t :: ts' => (h :: t) :: cons_all hs' ts'
  | _, _ => []
  end.

(** [snoc_all st row] adds each element of [row] at the end of the
    matching list of [st]. *)
Fixpoint snoc_all (st : list (list A)) (row : list A) : list (list A) :=
  match st, row with
  | col :: st', x :: row' => (col ++ [x]) :: snoc_all st' row'
  | _, _ => []
  end.

(** [app_all st chs] appends each list of [chs] to the matching list
    of [st]. *)
Fixpoint app_all (st chs : list (list A)) : list (list A) :=
  match st, chs with
  | col :: st', ch :: chs' => (col ++ ch) :: app_all st' chs'
  | _, _ => []
  end.

(** All the sequences have length [L]. *)
Definition all_length (L : nat) (chs : list (list A)) : Prop :=
  Forall (fun ch => List.length ch = L) chs.

End Columns.

(** ** Notions used to state and prove the file properties *)

(** The [n] bytes at offset [off]. *)
Definition bytes_at (off n : nat) (b : list byte) : list byte :=
  firstn n (skipn off b).

(** The header fields at their offsets in the first 44 bytes of a file,
    the integers read as unsigned little-endian. *)
Definition header_of_bytes (b : list byte) : WaveFileHeaders :=
  {| riff_id := bytes_at 0 4 b;
     file_size := le_value (bytes_at 4 4 b);
     wave := bytes_at 8 4 b;
     fmt_id := bytes_at 12 4 b;
     fmt_size := le_value (bytes_at 16 4 b);
     wav_type := le_value (bytes_at 20 2 b);
     num_channels := le_value (bytes_at 22 2 b);
     sampling_freq := le_value (bytes_at 24 4 b);
     bytes_per_second := le_value (bytes_at 28 4 b);
     bytes_per_sample := le_value (bytes_at 32 2 b);
     sample_bits := le_value (bytes_at 34 2 b);
     data_id := bytes_at 36 4 b;
     data_size := le_value (bytes_at 40 4 b) |}.

(** The signed 16-bit integer of two little-endian bytes. *)
Definition sint16 (bs : list byte) : Z :=
  let u := le_value bs in if u <? 32768 then u else u - 65536.

(** The first [n] 16-bit integers of [data]. *)
Definition shorts_at (n : nat) (data : list byte) : list Z :=
  map (fun k => sint16 (bytes_at (2 * k) 2 data)) (seq 0 n).

(** ** Rows of interleaved samples *)

Section Rows.
Context {A : Type}.

(** The first [q] rows of [C] samples each. *)
Fixpoint chunks (C q : nat) (samples : list A) : list (list A) :=
  match q with
  | O => []
  | S q' => firstn C samples :: chunks C q' (skipn C samples)
  end.

End Rows.

(** * Properties *)

(** ** The header formats *)

Lemma calcsize_headers : calcsize WAVE_FILE_HEADERS_STRUCT = Ok 44.
Proof. vm_compute. reflexivity. Qed.

Lemma calcsize_format : calcsize FORMAT_HEADER_STRUCT = Ok 24.
Proof. vm_compute. reflexivity. Qed.

Lemma create_headers_eq (num_samples : Z) :
  create_headers num_samples =
  Ok (headers_with_sizes (44 - 8 + num_samples * 2) (num_samples * 2)).
Proof.
  unfold create_headers.
  rewrite calcsize_headers, calcsize_format.
  reflexivity.
Qed.

(** C1: for every non-negative sample count the header has
    [data_size = 2 * sample_count] and
    [file_size = 44 - 8 + 2 * sample_count], where 44 is the size of the
    packed header and so [file_size = 44 - 8 + data_size]. *)
Theorem create_headers_sizes (sample_count : Z) :
  0 <= sample_count ->
  exists h,
    create_headers sample_count = Ok h
    /\ calcsize WAVE_FILE_HEADERS_STRUCT = Ok 44
    /\ data_size h = 2 * sample_count
    /\ file_size h = 44 - 8 + 2 * sample_count
    /\ file_size h = 44 - 8 + data_size h.
Proof.
  intros _.
  eexists. split; [apply create_headers_eq|].
  split; [apply calcsize_headers|].
  cbn [data_size file_size headers_with_sizes]. lia.
Qed.

Lemma create_headers_sizes_witness :
  0 <= 3 /\
  exists h,
    create_headers 3 = Ok h
    /\ calcsize WAVE_FILE_HEADERS_STRUCT = Ok 44
    /\ data_size h = 2 * 3
    /\ file_size h = 44 - 8 + 2 * 3
    /\ file_size h = 44 - 8 + data_size h.
Proof.
  split; [lia | apply (create_headers_sizes 3); lia].
Defined.

(** C9: the byte rate of every built header is
    [SAMPLING_FREQ * SAMPLE_WIDTH = 44100 * 2 = 88200]; the channel count
    is not a factor of it. *)
Theorem create_headers_byte_rate (sample_count : Z) :
  exists h,
    create_headers sample_count = Ok h
    /\ bytes_per_second h = sampling_freq h * bytes_per_sample h
    /\ sampling_freq h = 44100
    /\ bytes_per_sample h = 2
    /\ bytes_per_second h = 88200
    /\ bytes_per_second h <> sampling_freq h * num_channels h * bytes_per_sample h.
Proof.
  eexists. split; [apply create_headers_eq|].
  cbn. repeat split; discriminate.
Qed.

(** ** Formats built by f-strings *)

Ltac eval_digit :=
  match goal with
  | |- context [digit_of ?c] =>
      let v := eval vm_compute in (digit_of c) in
      change (digit_of c) with v
  end.

Lemma parse_digits_pos (d : uint) (acc : positive) (rest : string) :
  parse_items (NilEmpty.string_of_uint d ++ rest) (Some (N.pos acc)) =
  parse_items rest (Some (N.pos (Pos.of_uint_acc d acc))).
Proof.
  revert acc.
  induction d; intros acc; cbn [NilEmpty.string_of_uint String.append];
    try reflexivity;
    cbn [parse_items]; eval_digit; cbn [Pos.of_uint_acc];
    rewrite <- IHd; do 2 f_equal; lia.
Qed.

Lemma parse_digits_zero (d : uint) (rest : string) :
  parse_items (NilEmpty.string_of_uint d ++ rest) (Some 0%N) =
  parse_items rest (Some (Pos.of_uint d)).
Proof.
  induction d; cbn [NilEmpty.string_of_uint String.append];
    try reflexivity;
    cbn [parse_items]; eval_digit; cbn [Pos.of_uint];
    change (10 * 0 + 0)%N with 0%N; try apply IHd;
    apply parse_digits_pos.
Qed.

Lemma parse_digits_start (d : uint) (rest : string) :
  d <> Nil ->
  parse_items (NilEmpty.string_of_uint d ++ rest) None =
  parse_items rest (Some (Pos.of_uint d)).
Proof.
  intros Hd. rewrite <- parse_digits_zero.
  destruct d; [congruence | reflexivity ..].
Qed.

Lemma parse_shorts_format (n : Z) :
  0 <= n ->
  parse_format (shorts_format n) = Ok (Little, [(Z.to_N n, Code_h)]).
Proof.
  intros Hn. unfold shorts_format, str_int.
  cbn [String.append parse_format].
  destruct n as [|p|p]; [reflexivity| |lia].
  cbn [Z.to_int NilZero.string_of_int].
  assert (Hnil : Pos.to_uint p <> Nil) by apply DecimalPos.Unsigned.to_uint_nonnil.
  replace (NilZero.string_of_uint (Pos.to_uint p))
    with (NilEmpty.string_of_uint (Pos.to_uint p))
    by (destruct (Pos.to_uint p); [congruence | reflexivity ..]).
  rewrite parse_digits_start by exact Hnil.
  rewrite DecimalPos.Unsigned.of_to. reflexivity.
Qed.

Lemma parse_shorts_format_neg (n : Z) :
  n < 0 -> parse_format (shorts_format n) = Raise StructError.
Proof.
  intros Hn. destruct n as [|p|p]; try lia. reflexivity.
Qed.

Lemma mapM_pack_shorts (ints : list Z) :
  mapM (pack_int Little Code_h) (map PyInt ints) =
  if forallb (in_range Code_h) ints
  then Ok (map (le_bytes 2) ints)
  else Raise StructError.
Proof.
  induction ints as [|z ints IH]; [reflexivity|].
  cbn [map mapM forallb pack_int].
  destruct (in_range Code_h z); [|reflexivity].
  cbn [bind andb]. rewrite IH.
  destruct (forallb (in_range Code_h) ints); reflexivity.
Qed.

Lemma pack_shorts (ints : list Z) :
  pack (shorts_format (len ints)) (map PyInt ints) =
  if forallb (in_range Code_h) ints
  then Ok (List.concat (map (le_bytes 2) ints))
  else Raise StructError.
Proof.
  unfold pack. rewrite parse_shorts_format by (unfold len; lia).
  cbn [bind pack_items]. unfold len.
  replace (N.to_nat (Z.to_N (Z.of_nat (List.length ints))))
    with (List.length (map PyInt ints)) by (rewrite length_map; lia).
  rewrite Nat.ltb_irrefl.
  rewrite firstn_all, skipn_all.
  rewrite mapM_pack_shorts.
  destruct (forallb (in_range Code_h) ints); [|reflexivity].
  cbn. rewrite app_nil_r. reflexivity.
Qed.

(** ** Comprehensions *)

Lemma mapM_length {A B : Type} (f : A -> result B) (l : list A) (r : list B) :
  mapM f l = Ok r -> List.length r = List.length l.
Proof.
  revert r. induction l as [|a l IH]; intros r Hr; cbn [mapM] in Hr.
  - injection Hr as <-. reflexivity.
  - destruct (f a); [|discriminate]. cbn [bind] in Hr.
    destruct (mapM f l) as [r'|]; [|discriminate].
    injection Hr as <-. cbn [List.length]. rewrite (IH r' eq_refl).
    reflexivity.
Qed.

(** ** Bytes and integers *)

Lemma Z_of_byte_of_Z (z : Z) : Z_of_byte (byte_of_Z z) = z mod 256.
Proof.
  unfold Z_of_byte, byte_of_Z.
  assert (Hz : 0 <= z mod 256 < 256) by (apply Z.mod_pos_bound; lia).
  destruct (Byte.of_N (Z.to_N (z mod 256))) as [b|] eqn:Hb.
  - apply Byte.to_of_N in Hb. rewrite Hb. lia.
  - apply Byte.of_N_None_iff in Hb. lia.
Qed.

Lemma length_le_bytes (n : nat) (z : Z) : List.length (le_bytes n z) = n.
Proof.
  revert z. induction n as [|n IH]; intros z; cbn; [|rewrite IH]; reflexivity.
Qed.

Lemma le_value_le_bytes (n : nat) (z : Z) :
  le_value (le_bytes n z) = z mod 256 ^ Z.of_nat n.
Proof.
  revert z. induction n as [|n IH]; intros z.
  - cbn. rewrite Z.mod_1_r. reflexivity.
  - cbn [le_bytes le_value]. rewrite IH, Z_of_byte_of_Z.
    rewrite Nat2Z.inj_succ, Z.pow_succ_r by lia.
    rewrite Z.rem_mul_r by lia. reflexivity.
Qed.

Lemma unpack_int_short (z : Z) :
  -32768 <= z <= 32767 ->
  unpack_int Little Code_h (le_bytes 2 z) = PyInt z.
Proof.
  intros Hz. unfold unpack_int. rewrite le_value_le_bytes.
  change (256 ^ Z.of_nat 2) with 65536.
  f_equal. destruct (z mod 65536 <? 32768) eqn:E;
    [apply Z.ltb_lt in E | apply Z.ltb_ge in E];
    Z.div_mod_to_equations; lia.
Qed.

Lemma unpack_int_unsigned (k : code) (n : nat) (z : Z) :
  k <> Code_h -> 0 <= z < 256 ^ Z.of_nat n ->
  unpack_int Little k (le_bytes n z) = PyInt z.
Proof.
  intros Hk Hz. unfold unpack_int. rewrite le_value_le_bytes.
  rewrite Z.mod_small by exact Hz.
  destruct k; congruence.
Qed.

Lemma unpack_ints_shorts (ints : list Z) :
  Forall (fun z => -32768 <= z <= 32767) ints ->
  unpack_ints Little Code_h (List.length ints)
    (List.concat (map (le_bytes 2) ints)) = map PyInt ints.
Proof.
  induction 1 as [|z ints Hz _ IH]; [reflexivity|].
  cbn [List.length map List.concat unpack_ints code_size].
  change (Z.to_nat 2) with 2%nat.
  set (rest := List.concat (map (le_bytes 2) ints)) in *.
  change (firstn 2 (le_bytes 2 z ++ rest)) with (le_bytes 2 z).
  change (skipn 2 (le_bytes 2 z ++ rest)) with rest.
  rewrite unpack_int_short by exact Hz.
  rewrite IH. reflexivity.
Qed.

Lemma unpack_shorts (n : Z) (data : list byte) :
  unpack (shorts_format n) data =
  if (0 <=? n) && (len data =? 2 * n)
  then Ok (unpack_ints Little Code_h (Z.to_nat n) data)
  else Raise StructError.
Proof.
  unfold unpack.
  destruct (0 <=? n) eqn:Hn; [apply Z.leb_le in Hn | apply Z.leb_gt in Hn].
  - rewrite parse_shorts_format by exact Hn.
    assert (Hsize : size_items Little [(Z.to_N n, Code_h)] 0 = 2 * n)
      by (cbn [size_items code_align code_size]; unfold padding;
          rewrite Z.mod_1_r; lia).
    cbn [bind andb]. rewrite Hsize. fold (len data).
    destruct (len data =? 2 * n) eqn:E; [|reflexivity].
    cbn [unpack_items code_align code_size]. unfold padding.
    rewrite ?Z.mod_1_r. cbn [Z.opp Z.modulo Z.div_eucl Z.to_nat skipn snd].
    apply Z.eqb_eq in E. unfold len in E.
    rewrite firstn_all2 by lia.
    rewrite app_nil_r. do 2 f_equal. lia.
  - rewrite parse_shorts_format_neg by exact Hn. reflexivity.
Qed.

(** ** Encoding samples *)

(** C3: encoding 0.5 and -0.5 scales them to 16383.5 and -16383.5,
    truncates toward zero to 16383 and -16383, and packs these as the
    four bytes FF 3F 01 C0. *)
Theorem convert_to_bytes_half :
  (SF2Q float_half == 1 # 2)%Q
  /\ valid_binary prec emax float_half = true
  /\ mapM int_sample [float_half; SFopp float_half] = Ok [16383; -16383]
  /\ pack (shorts_format 2) [PyInt 16383; PyInt (-16383)]
     = Ok [xff; x3f; x01; xc0]
  /\ convert_to_bytes [float_half; SFopp float_half]
     = Ok [xff; x3f; x01; xc0].
Proof.
  split; [reflexivity|].
  repeat split; vm_compute; reflexivity.
Qed.

(** The claim C7 as stated fails: 2.0 is outside [-1.0, 1.0], its scaled
    integer 65534 does not fit the 16-bit format, and [convert_to_bytes]
    raises [struct.error] instead of returning wrapped bytes. *)
Lemma convert_to_bytes_raises_on_two :
  SFltb float_one float_two = true
  /\ int_sample float_two = Ok 65534
  /\ convert_to_bytes [float_two] = Raise StructError.
Proof. repeat split; vm_compute; reflexivity. Qed.

(** What [convert_to_bytes] returns, in terms of the scaled integers. *)
Lemma convert_to_bytes_eq (samples : list float) :
  convert_to_bytes samples =
  (int_samples <- mapM int_sample samples ;;
   if forallb (fun z => (-32768 <=? z) && (z <=? 32767)) int_samples
   then Ok (List.concat (map (le_bytes 2) int_samples))
   else Raise StructError).
Proof.
  unfold convert_to_bytes.
  destruct (mapM int_sample samples) as [ints|e] eqn:E; [|reflexivity].
  cbn [bind].
  unfold len. rewrite <- (mapM_length _ _ _ E). apply pack_shorts.
Qed.

(** C7, amended: [convert_to_bytes] never clamps.  When every
    [int(sample * 32767)] lies in [-32768, 32767] it returns these
    integers packed unchanged on two little-endian bytes each, whether
    or not the samples lie in [-1.0, 1.0]; when one of them lies outside
    that range it raises [struct.error] and nothing wraps around. *)
Theorem convert_to_bytes_no_clamping (samples : list float) (ints : list Z) :
  mapM int_sample samples = Ok ints ->
  (Forall (fun z => -32768 <= z <= 32767) ints ->
   convert_to_bytes samples = Ok (List.concat (map (le_bytes 2) ints)))
  /\ (Exists (fun z => z < -32768 \/ 32767 < z) ints ->
      convert_to_bytes samples = Raise StructError).
Proof.
  intros Hints. rewrite convert_to_bytes_eq, Hints. cbn [bind].
  split; intros H.
  - replace (forallb _ ints) with true; [reflexivity|].
    symmetry. apply forallb_forall. intros z Hz.
    rewrite Forall_forall in H. specialize (H z Hz).
    apply andb_true_iff. split; apply Z.leb_le; lia.
  - replace (forallb _ ints) with false; [reflexivity|].
    symmetry. apply not_true_is_false. intros Hall.
    rewrite forallb_forall in Hall.
    apply Exists_exists in H. destruct H as (z & Hz & Hout).
    specialize (Hall z Hz). apply andb_true_iff in Hall.
    destruct Hall as [H1 H2]. apply Z.leb_le in H1, H2. lia.
Qed.

Lemma convert_to_bytes_no_clamping_witness :
  (Forall (fun z => -32768 <= z <= 32767) [-32767; 65534] ->
   convert_to_bytes [SFopp float_one; float_two]
   = Ok (List.concat (map (le_bytes 2) [-32767; 65534])))
  /\ (Exists (fun z => z < -32768 \/ 32767 < z) [-32767; 65534] ->
      convert_to_bytes [SFopp float_one; float_two] = Raise StructError).
Proof.
  apply (convert_to_bytes_no_clamping [SFopp float_one; float_two]).
  vm_compute. reflexivity.
Defined.

(** ** Building headers *)

(** The claim C5 as stated fails: for 2^31 samples [create_headers]
    returns a header, whose sizes exceed the 32-bit fields. *)
Lemma create_headers_accepts_large_count :
  exists h,
    create_headers (2 ^ 31) = Ok h
    /\ data_size h = 2 ^ 32
    /\ 4294967295 < data_size h
    /\ 4294967295 < file_size h.
Proof.
  eexists. split; [apply create_headers_eq|].
  cbn. repeat split.
Qed.

(** C5, amended: [create_headers] takes the sample count only and
    never fails; for every sample count it returns a header, with two
    channels and [data_size = 2 * sample_count], whether or not the sizes
    fit in 32 bits. *)
Theorem create_headers_total (sample_count : Z) :
  exists h,
    create_headers sample_count = Ok h
    /\ num_channels h = 2
    /\ data_size h = 2 * sample_count
    /\ file_size h = 36 + 2 * sample_count.
Proof.
  eexists. split; [apply create_headers_eq|].
  cbn [num_channels data_size file_size headers_with_sizes]. lia.
Qed.

(** ** Packing and unpacking headers *)

Lemma parse_headers_format :
  parse_format WAVE_FILE_HEADERS_STRUCT =
  Ok (Little,
      [(4%N, Code_s); (1%N, Code_I); (4%N, Code_s); (4%N, Code_s);
       (1%N, Code_I); (1%N, Code_H); (1%N, Code_H); (1%N, Code_I);
       (1%N, Code_I); (1%N, Code_H); (1%N, Code_H); (4%N, Code_s);
       (1%N, Code_I)]).
Proof. vm_compute. reflexivity. Qed.

Lemma pack_headers_with_sizes (fs ds : Z) :
  pack WAVE_FILE_HEADERS_STRUCT (values_of_headers (headers_with_sizes fs ds)) =
  if in_range Code_I fs && in_range Code_I ds
  then Ok (header_bytes fs ds)
  else Raise StructError.
Proof.
  unfold pack. rewrite parse_headers_format.
  destruct (in_range Code_I fs) eqn:Hfs; destruct (in_range Code_I ds) eqn:Hds;
    cbv -[in_range le_bytes]; rewrite ?Hfs, ?Hds; cbv -[le_bytes]; reflexivity.
Qed.

Lemma length_header_bytes (fs ds : Z) : List.length (header_bytes fs ds) = 44%nat.
Proof.
  unfold header_bytes. rewrite !length_app, !length_le_bytes. reflexivity.
Qed.

Lemma unpack_items_s (n : N) (rest : list item) (here after : list byte) (off : Z) :
  List.length here = N.to_nat n ->
  unpack_items Little ((n, Code_s) :: rest) (here ++ after) off =
  PyBytes here :: unpack_items Little rest after (off + 0 + Z.of_N n * 1).
Proof.
  intros Hlen. cbn [unpack_items code_align code_size]. unfold padding.
  rewrite Z.mod_1_r. cbn [Z.to_nat skipn].
  replace (Z.to_nat (Z.of_N n * 1)) with (List.length here) by lia.
  rewrite firstn_app, firstn_all, Nat.sub_diag, firstn_0, app_nil_r.
  rewrite skipn_app, skipn_all, Nat.sub_diag, skipn_0.
  reflexivity.
Qed.

Lemma unpack_items_int (k : code) (z : Z) (rest : list item)
    (after : list byte) (off : Z) :
  k <> Code_s ->
  let w := Z.to_nat (code_size k) in
  unpack_items Little ((1%N, k) :: rest) (le_bytes w z ++ after) off =
  unpack_int Little k (le_bytes w z)
  :: unpack_items Little rest after (off + 0 + Z.of_N 1 * code_size k).
Proof.
  intros Hk w. cbn [unpack_items code_align]. unfold padding.
  rewrite Z.mod_1_r. cbn [Z.to_nat skipn].
  replace (Z.to_nat (Z.of_N 1 * code_size k)) with (List.length (le_bytes w z))
    by (rewrite length_le_bytes; unfold w; lia).
  rewrite firstn_app, firstn_all, Nat.sub_diag, firstn_0, app_nil_r.
  rewrite skipn_app, skipn_all, Nat.sub_diag, skipn_0.
  destruct k; [congruence | | | ];
    change (N.to_nat 1) with 1%nat; cbn [unpack_ints app];
    fold w; rewrite firstn_all2 by (rewrite length_le_bytes; lia);
    reflexivity.
Qed.

Lemma unpack_header_bytes (fs ds : Z) :
  in_range Code_I fs = true -> in_range Code_I ds = true ->
  unpack WAVE_FILE_HEADERS_STRUCT (header_bytes fs ds) =
  Ok (values_of_headers (headers_with_sizes fs ds)).
Proof.
  intros Hfs Hds.
  assert (Hfs' : 0 <= fs < 256 ^ Z.of_nat 4) by (cbn in Hfs |- *; lia).
  assert (Hds' : 0 <= ds < 256 ^ Z.of_nat 4) by (cbn in Hds |- *; lia).
  unfold unpack. rewrite parse_headers_format. cbn [bind].
  rewrite length_header_bytes.
  change (Z.of_nat 44 =? _) with true. cbv iota.
  unfold header_bytes.
  change (bytes_of_string "WAVEfmt ")
    with (bytes_of_string "WAVE" ++ bytes_of_string "fmt ").
  rewrite <- (app_nil_r (le_bytes 4 ds)), <- !app_assoc.
  rewrite unpack_items_s by reflexivity.
  rewrite (unpack_items_int Code_I fs) by discriminate.
  rewrite !unpack_items_s by reflexivity.
  rewrite (unpack_items_int Code_I 16) by discriminate.
  rewrite (unpack_items_int Code_H 1) by discriminate.
  rewrite (unpack_items_int Code_H 2) by discriminate.
  rewrite (unpack_items_int Code_I 44100) by discriminate.
  rewrite (unpack_items_int Code_I 88200) by discriminate.
  rewrite (unpack_items_int Code_H 2) by discriminate.
  rewrite (unpack_items_int Code_H 16) by discriminate.
  rewrite unpack_items_s by reflexivity.
  rewrite (unpack_items_int Code_I ds) by discriminate.
  change (Z.to_nat (code_size Code_I)) with 4%nat.
  rewrite !unpack_int_unsigned by (try discriminate; try assumption; cbn; lia).
  reflexivity.
Qed.

Lemma headers_of_values_of_headers (fs ds : Z) :
  headers_of_values (values_of_headers (headers_with_sizes fs ds)) =
  Ok (headers_with_sizes fs ds).
Proof. reflexivity. Qed.

(** ** Writing files *)

Lemma write_wave_file_inv (samples : list float) (content : list byte) :
  write_wave_file samples = Ok content ->
  let fs := 44 - 8 + len samples * 2 in
  let ds := len samples * 2 in
  in_range Code_I fs = true /\ in_range Code_I ds = true
  /\ exists data_bytes,
       convert_to_bytes samples = Ok data_bytes
       /\ content = header_bytes fs ds ++ data_bytes.
Proof.
  intros Hw fs ds. unfold write_wave_file in Hw.
  rewrite create_headers_eq in Hw. cbn [bind] in Hw.
  rewrite pack_headers_with_sizes in Hw. fold fs ds in Hw.
  destruct (in_range Code_I fs); [|discriminate].
  destruct (in_range Code_I ds); [|discriminate].
  cbn [andb bind] in Hw.
  destruct (convert_to_bytes samples) as [data_bytes|]; [|discriminate].
  injection Hw as <-. eauto.
Qed.

(** The claim C4 as stated fails: the writer has no channel-count
    argument, and a caller who means one channel gets a file whose
    header declares two. *)
Lemma write_wave_file_channels_counterexample :
  exists content h,
    write_wave_file [] = Ok content
    /\ read_wave_file content = Ok (h, [])
    /\ 1 >= 1
    /\ num_channels h <> 1.
Proof.
  eexists. eexists. split; [vm_compute; reflexivity|].
  split; [vm_compute; reflexivity|].
  split; [lia | discriminate].
Qed.

(** C4, amended: the file writer takes the samples only; whenever it
    succeeds, the header it has built and the header found in the first
    44 bytes of the file are the same, and their channel count is 2. *)
Theorem write_wave_file_channels (samples : list float) (content : list byte) :
  write_wave_file samples = Ok content ->
  exists h values,
    create_headers (len samples) = Ok h
    /\ unpack WAVE_FILE_HEADERS_STRUCT (firstn 44 content) = Ok values
    /\ headers_of_values values = Ok h
    /\ num_channels h = 2.
Proof.
  intros Hw. apply write_wave_file_inv in Hw.
  destruct Hw as (Hfs & Hds & data_bytes & _ & ->).
  eexists. eexists. split; [apply create_headers_eq|].
  rewrite firstn_app, length_header_bytes, Nat.sub_diag, firstn_0, app_nil_r.
  rewrite firstn_all2 by (rewrite length_header_bytes; lia).
  split; [apply unpack_header_bytes; assumption|].
  split; reflexivity.
Qed.

Lemma write_wave_file_channels_witness :
  exists h values,
    create_headers (len [float_half]) = Ok h
    /\ unpack WAVE_FILE_HEADERS_STRUCT
         (firstn 44 (header_bytes 38 2 ++ [xff; x3f])) = Ok values
    /\ headers_of_values values = Ok h
    /\ num_channels h = 2.
Proof.
  apply (write_wave_file_channels [float_half]).
  vm_compute. reflexivity.
Defined.

(** ** Reading files *)

(** The claim C6 as stated fails: the header of [odd_size_file] declares
    one byte of data, no byte follows it, and the reader returns the
    header and an empty sample list. *)
Lemma read_wave_file_odd_size_counterexample :
  exists h,
    read_wave_file odd_size_file = Ok (h, [])
    /\ data_size h = 1
    /\ len (skipn 44 odd_size_file) < data_size h.
Proof.
  eexists. split; [vm_compute; reflexivity|].
  split; [reflexivity | vm_compute; reflexivity].
Qed.

(** C6, amended: when the header parsed from the first 44 bytes declares
    [data_size] and fewer than [2 * (data_size // 2)] bytes follow it,
    the reader raises [struct.error] and returns nothing. *)
Theorem read_wave_file_truncated (content : list byte) (values : list pyval)
    (h : WaveFileHeaders) :
  unpack WAVE_FILE_HEADERS_STRUCT (firstn 44 content) = Ok values ->
  headers_of_values values = Ok h ->
  len (skipn 44 content) < 2 * (data_size h / 2) ->
  read_wave_file content = Raise StructError.
Proof.
  intros Hu Hh Hlen. unfold read_wave_file.
  rewrite calcsize_headers. cbn [bind file_read].
  change (Z.to_nat 44) with 44%nat.
  rewrite Hu. cbn [bind]. rewrite Hh. cbn [bind].
  rewrite unpack_shorts.
  set (sc := data_size h / 2) in *.
  set (rest := skipn 44 content) in *.
  assert (Hshort : (len (firstn (Z.to_nat (sc * 2)) rest) =? 2 * sc) = false).
  { apply Z.eqb_neq. unfold len in *.
    rewrite length_firstn. lia. }
  rewrite Hshort, andb_false_r. reflexivity.
Qed.

Lemma read_wave_file_truncated_witness :
  read_wave_file truncated_file = Raise StructError.
Proof.
  apply (read_wave_file_truncated truncated_file
           (values_of_headers (headers_with_sizes 40 4))
           (headers_with_sizes 40 4)).
  - vm_compute. reflexivity.
  - reflexivity.
  - vm_compute. reflexivity.
Defined.

(** ** Decoding samples *)

(** C10: decoding does not clamp.  The two bytes 00 80 unpack to the
    integer -32768, which [convert_to_samples] maps to the binary64
    quotient of -32768 by 32767, a float strictly below -1.0; the reader
    returns this sample for a file holding these two bytes. *)
Theorem convert_to_samples_below_minus_one :
  unpack (shorts_format 1) [x00; x80] = Ok [PyInt (-32768)]
  /\ exists a b d,
       float_of_int (-32768) = Ok a
       /\ float_of_int 32767 = Ok b
       /\ d = SFdiv prec emax a b
       /\ convert_to_samples [-32768] = Ok [d]
       /\ SFltb d (SFopp float_one) = true
       /\ (SF2Q d < -1)%Q
       /\ (Qabs (SF2Q d - (-32768 # 32767)) <= 1 # 2 ^ 53)%Q
       /\ exists h, read_wave_file min_sample_file = Ok (h, [d]).
Proof.
  split; [vm_compute; reflexivity|].
  do 3 eexists.
  split; [vm_compute; reflexivity|].
  split; [vm_compute; reflexivity|].
  split; [reflexivity|].
  split; [vm_compute; reflexivity|].
  split; [vm_compute; reflexivity|].
  split; [vm_compute; reflexivity|].
  split; [vm_compute; discriminate|].
  eexists. vm_compute. reflexivity.
Qed.

(** ** Channels *)

Section ChannelProofs.
Context {A : Type}.
Implicit Types (chs st ts rows : list (list A)) (hs row samples : list A).

Lemma heads_all_length (L : nat) chs :
  all_length (S L) chs ->
  exists hs ts,
    heads chs = Some (hs, ts)
    /\ chs = cons_all hs ts
    /\ List.length hs = List.length chs
    /\ List.length ts = List.length chs
    /\ all_length L ts.
Proof.
  induction 1 as [|ch chs Hch _ (hs & ts & Hh & -> & Hlh & Hlt & Hts)].
  - exists [], []. repeat split. constructor.
  - destruct ch as [|x t]; [discriminate|].
    exists (x :: hs), (t :: ts). cbn [heads]. rewrite Hh.
    repeat split; cbn [List.length cons_all]; try congruence.
    constructor; [cbn in Hch; congruence | exact Hts].
Qed.

Lemma fold_left_app_concat rows (init : list A) :
  fold_left (fun final_list values => final_list ++ values) rows init =
  init ++ List.concat rows.
Proof.
  revert init. induction rows as [|row rows IH]; intros init; cbn.
  - rewrite app_nil_r. reflexivity.
  - rewrite IH, app_assoc. reflexivity.
Qed.

Lemma merge_channels_rows (L : nat) chs :
  all_length L chs ->
  merge_channels chs =
  List.concat (match chs with [] => [] | _ => zip_steps L chs end).
Proof.
  intros Hall. unfold merge_channels. rewrite fold_left_app_concat.
  cbn [app]. destruct chs as [|first chs]; [reflexivity|].
  cbn [zip_star]. inversion Hall; subst. reflexivity.
Qed.

Lemma length_cons_all hs ts :
  List.length hs = List.length ts ->
  List.length (cons_all hs ts) = List.length hs.
Proof.
  revert ts. induction hs as [|h hs IH]; intros [|t ts] Hl;
    cbn in *; try congruence.
  rewrite IH by congruence. reflexivity.
Qed.

Lemma zip_steps_rows (L : nat) chs :
  all_length L chs ->
  List.length (zip_steps L chs) = L
  /\ all_length (List.length chs) (zip_steps L chs).
Proof.
  revert chs. induction L as [|L IH]; intros chs Hall.
  - split; [reflexivity | constructor].
  - destruct (heads_all_length L chs Hall)
      as (hs & ts & Hh & -> & Hlh & Hlt & Hts).
    cbn [zip_steps]. rewrite Hh.
    destruct (IH ts Hts) as [Hlen Hrows].
    split; [cbn; congruence|].
    constructor; [exact Hlh | rewrite <- Hlt; exact Hrows].
Qed.

Lemma length_concat_rows (C : nat) rows :
  all_length C rows ->
  List.length (List.concat rows) = (List.length rows * C)%nat.
Proof.
  induction 1 as [|row rows Hrow _ IH]; [reflexivity|].
  cbn [List.concat List.length]. rewrite length_app, IH, Hrow.
  reflexivity.
Qed.

Lemma nth_error_cons_all hs ts (c : nat) (ch : list A) :
  nth_error (cons_all hs ts) c = Some ch ->
  exists h t, ch = h :: t /\ nth_error hs c = Some h /\ nth_error ts c = Some t.
Proof.
  revert ts c. induction hs as [|h hs IH]; intros [|t ts] [|c] Hc;
    cbn in Hc; try discriminate.
  - injection Hc as <-. exists h, t. repeat split.
  - apply IH in Hc. exact Hc.
Qed.

(** The sample of channel [c] at time [i] is at index [i * C + c]. *)
Lemma nth_error_rows (L : nat) chs (i c : nat) (ch : list A) :
  all_length L chs ->
  (i < L)%nat ->
  nth_error chs c = Some ch ->
  nth_error (List.concat (zip_steps L chs)) (i * List.length chs + c) =
  nth_error ch i.
Proof.
  revert chs i ch. induction L as [|L IH]; intros chs i ch Hall Hi Hc; [lia|].
  destruct (heads_all_length L chs Hall)
    as (hs & ts & Hh & -> & Hlh & Hlt & Hts).
  cbn [zip_steps]. rewrite Hh. cbn [List.concat].
  destruct (nth_error_cons_all _ _ _ _ Hc) as (h & t & -> & Hhc & Htc).
  assert (Hclt : (c < List.length hs)%nat)
    by (apply nth_error_Some; congruence).
  destruct i as [|i].
  - cbn [Nat.mul Nat.add nth_error].
    rewrite nth_error_app1 by exact Hclt. exact Hhc.
  - rewrite nth_error_app2 by lia.
    replace (S i * List.length (cons_all hs ts) + c - List.length hs)%nat
      with (i * List.length ts + c)%nat by lia.
    cbn [nth_error]. apply IH; [exact Hts | lia | exact Htc].
Qed.

Lemma app_all_snoc_all st hs ts :
  app_all (snoc_all st hs) ts = app_all st (cons_all hs ts).
Proof.
  revert hs ts. induction st as [|col st IH]; intros [|h hs] [|t ts];
    cbn; try reflexivity.
  rewrite IH, <- app_assoc. reflexivity.
Qed.

Lemma length_snoc_all st row :
  List.length st = List.length row ->
  List.length (snoc_all st row) = List.length st.
Proof.
  revert row. induction st as [|col st IH]; intros [|x row] Hl;
    cbn in *; try congruence.
  rewrite IH by congruence. reflexivity.
Qed.

Lemma app_all_nil st chs :
  all_length 0 chs -> List.length st = List.length chs ->
  app_all st chs = st.
Proof.
  intros Hall. revert st.
  induction Hall as [|ch chs Hch _ IH]; intros [|col st] Hl;
    cbn in *; try congruence.
  apply length_zero_iff_nil in Hch. subst ch.
  rewrite app_nil_r, IH by congruence. reflexivity.
Qed.

Lemma app_all_repeat_nil chs :
  app_all (repeat [] (List.length chs)) chs = chs.
Proof.
  induction chs as [|ch chs IH]; cbn; [|rewrite IH]; reflexivity.
Qed.

(** Appending the rows of the transposition one after the other
    rebuilds the channels. *)
Lemma fold_snoc_all_rows (L : nat) chs st :
  all_length L chs -> List.length st = List.length chs ->
  fold_left snoc_all (zip_steps L chs) st = app_all st chs.
Proof.
  revert chs st. induction L as [|L IH]; intros chs st Hall Hl.
  - cbn. symmetry. apply app_all_nil; assumption.
  - destruct (heads_all_length L chs Hall)
      as (hs & ts & Hh & -> & Hlh & Hlt & Hts).
    cbn [zip_steps]. rewrite Hh. cbn [fold_left].
    rewrite IH; [apply app_all_snoc_all | exact Hts |].
    rewrite length_snoc_all; congruence.
Qed.

Lemma getitem_nat {B : Type} (l : list B) (p : nat) (x : B) :
  nth_error l p = Some x -> getitem l (Z.of_nat p) = Ok x.
Proof.
  intros Hx.
  assert (E : (Z.of_nat p <? 0) = false) by (apply Z.ltb_ge; lia).
  unfold getitem. cbv zeta. rewrite E. cbv iota. rewrite E.
  rewrite Nat2Z.id, Hx. reflexivity.
Qed.

Lemma set_nth_middle {B : Type} (done todo : list B) (old new : B) :
  set_nth (done ++ old :: todo) (List.length done) new = done ++ new :: todo.
Proof.
  induction done as [|d done IH]; cbn; [|rewrite IH]; reflexivity.
Qed.

Lemma append_at_middle (done todo : list (list A)) (col : list A) (x : A) :
  append_at (done ++ col :: todo) (Z.of_nat (List.length done)) x =
  Ok (done ++ (col ++ [x]) :: todo).
Proof.
  unfold append_at.
  rewrite (getitem_nat _ _ col)
    by (rewrite nth_error_app2, Nat.sub_diag by lia; reflexivity).
  cbn [bind].
  assert (E : (Z.of_nat (List.length done) <? 0) = false)
    by (apply Z.ltb_ge; lia).
  cbv zeta. rewrite E, Nat2Z.id, set_nth_middle. reflexivity.
Qed.

(** The inner loop of [separate_channels] at row [i], started at
    column [length done]: the samples [xs] found from index [p] on are
    added to the columns [todo]. *)
Lemma separate_inner_loop samples (C i : Z) :
  forall (todo : list (list A)) (xs : list A) (done : list (list A))
         (post : list A) (p : nat),
    List.length todo = List.length xs ->
    skipn p samples = xs ++ post ->
    Z.of_nat p = C * i + Z.of_nat (List.length done) ->
    for_each (map Z.of_nat (seq (List.length done) (List.length todo)))
      (fun j final_list =>
         x <- getitem samples (C * i + j) ;; append_at final_list j x)
      (done ++ todo)
    = Ok (done ++ snoc_all todo xs).
Proof.
  induction todo as [|col todo IH]; intros xs done post p Hl Hseg Hp.
  - destruct xs; [|discriminate]. reflexivity.
  - destruct xs as [|x xs]; [discriminate|].
    cbn [List.length seq map for_each snoc_all].
    rewrite <- Hp.
    assert (Hx : nth_error samples p = Some x)
      by (rewrite <- hd_error_skipn, Hseg; reflexivity).
    rewrite (getitem_nat _ _ _ Hx). cbn [bind].
    rewrite append_at_middle. cbn [bind].
    specialize (IH xs (done ++ [col ++ [x]]) post (S p)).
    rewrite length_app, Nat.add_1_r, <- app_assoc in IH.
    change ([col ++ [x]] ++ todo) with ((col ++ [x]) :: todo) in IH.
    change ([col ++ [x]] ++ snoc_all todo xs)
      with ((col ++ [x]) :: snoc_all todo xs) in IH.
    rewrite IH; [rewrite <- app_assoc; reflexivity
                | cbn in Hl; congruence | | lia].
    change (S p) with (1 + p)%nat.
    rewrite <- skipn_skipn, Hseg. reflexivity.
Qed.

(** The outer loop over the rows still to be read. *)
Lemma separate_outer_loop samples (C : nat) :
  forall rows (k : nat) st (post : list A),
    List.length st = C ->
    all_length C rows ->
    skipn (k * C) samples = List.concat rows ++ post ->
    for_each (map Z.of_nat (seq k (List.length rows)))
      (fun i final_list =>
         for_each (range (Z.of_nat C))
           (fun j final_list =>
              x <- getitem samples (Z.of_nat C * i + j) ;;
              append_at final_list j x)
           final_list)
      st
    = Ok (fold_left snoc_all rows st).
Proof.
  induction rows as [|row rows IH]; intros k st post Hst Hrows Hseg;
    [reflexivity|].
  apply Forall_cons_iff in Hrows. destruct Hrows as [Hrow Hrows].
  cbn [List.length seq map for_each fold_left].
  unfold range at 1. rewrite Nat2Z.id.
  pose proof (separate_inner_loop samples (Z.of_nat C) (Z.of_nat k)
                st row [] (List.concat rows ++ post) (k * C)) as Hin.
  change ([] ++ st) with st in Hin.
  change ([] ++ snoc_all st row) with (snoc_all st row) in Hin.
  change (@List.length (list A) []) with 0%nat in Hin.
  rewrite Hst in Hin.
  rewrite Hin;
    [|congruence | rewrite Hseg; cbn; symmetry; apply app_assoc | lia].
  cbn [bind].
  apply (IH (S k) (snoc_all st row) post).
  - rewrite length_snoc_all; congruence.
  - exact Hrows.
  - change (S k * C)%nat with (C + k * C)%nat.
    rewrite <- skipn_skipn, Hseg. cbn [List.concat].
    rewrite <- app_assoc, skipn_app, <- Hrow, skipn_all, Nat.sub_diag, skipn_0.
    reflexivity.
Qed.

(** C8, amended: for a non-empty list of channels that all have length
    [L], [merge_channels] gives the interleaving, of length [L * C]
    and with the sample of channel [c] at time [i] at index
    [i * C + c], and [separate_channels] with [C = len(channels)] gives
    the channels back. *)
Theorem separate_merge_channels (L : nat) chs :
  chs <> [] ->
  all_length L chs ->
  List.length (merge_channels chs) = (L * List.length chs)%nat
  /\ (forall (i c : nat) (ch : list A),
        (i < L)%nat -> nth_error chs c = Some ch ->
        nth_error (merge_channels chs) (i * List.length chs + c) =
        nth_error ch i)
  /\ separate_channels (merge_channels chs) (len chs) = Ok chs.
Proof.
  intros Hne Hall.
  rewrite (merge_channels_rows L chs Hall).
  assert (Hrows : match chs with [] => [] | _ :: _ => zip_steps L chs end
                  = zip_steps L chs) by (destruct chs; congruence).
  rewrite Hrows. clear Hrows.
  destruct (zip_steps_rows L chs Hall) as [HL HC].
  set (rows := zip_steps L chs) in *.
  set (C := List.length chs) in *.
  assert (HCpos : (0 < C)%nat)
    by (destruct chs; [congruence | cbn; lia]).
  assert (Hlen : List.length (List.concat rows) = (L * C)%nat)
    by (rewrite (length_concat_rows C rows HC), HL; reflexivity).
  split; [exact Hlen|].
  split; [intros i c ch Hi Hc; apply nth_error_rows; assumption|].
  unfold separate_channels, floordiv, len. fold C.
  rewrite Hlen.
  replace (Z.of_nat C =? 0) with false by (symmetry; apply Z.eqb_neq; lia).
  cbn [bind].
  replace (Z.of_nat (L * C) / Z.of_nat C) with (Z.of_nat L)
    by (rewrite Nat2Z.inj_mul, Z.div_mul by lia; reflexivity).
  unfold range at 1. rewrite !Nat2Z.id, <- HL.
  rewrite (separate_outer_loop (List.concat rows) C rows 0
             (repeat [] C) []).
  - unfold rows. rewrite fold_snoc_all_rows.
    + unfold C. rewrite app_all_repeat_nil. reflexivity.
    + exact Hall.
    + apply repeat_length.
  - apply repeat_length.
  - exact HC.
  - cbn. rewrite app_nil_r. reflexivity.
Qed.

End ChannelProofs.

(** The claim C8 as stated fails on the empty list of channels, whose
    members all have the same length: the merged list is empty and
    [separate_channels] divides its length by zero. *)
Lemma separate_merge_no_channel :
  all_length 0 (@nil (list Z))
  /\ merge_channels (@nil (list Z)) = []
  /\ separate_channels (merge_channels (@nil (list Z))) (len (@nil (list Z)))
     = Raise ZeroDivisionError.
Proof. repeat split. constructor. Qed.

Lemma separate_merge_channels_witness :
  List.length (merge_channels [[1; 2; 3]; [4; 5; 6]]) = (3 * 2)%nat
  /\ (forall (i c : nat) (ch : list Z),
        (i < 3)%nat -> nth_error [[1; 2; 3]; [4; 5; 6]] c = Some ch ->
        nth_error (merge_channels [[1; 2; 3]; [4; 5; 6]]) (i * 2 + c) =
        nth_error ch i)
  /\ separate_channels (merge_channels [[1; 2; 3]; [4; 5; 6]]) 2
     = Ok [[1; 2; 3]; [4; 5; 6]].
Proof.
  apply (separate_merge_channels 3 [[1; 2; 3]; [4; 5; 6]]).
  - discriminate.
  - repeat constructor.
Defined.

(** ** Rounding of products and quotients

    The binary64 operations of [SpecFloat] round with
    [binary_round_aux]: the mantissa is shifted right until it has at
    most 53 bits, the bits shifted out being summarised by a location,
    and the result is rounded to nearest, ties to even.  The lemmas
    below describe a value [(mx + r / den) * 2^ex] being rounded, first
    on integers and then on rational numbers. *)

(** A positive number with [d] binary digits lies in [2^(d-1), 2^d). *)
Lemma digits2_bounds (p : positive) :
  2 ^ (Z.pos (digits2_pos p) - 1) <= Z.pos p < 2 ^ Z.pos (digits2_pos p).
Proof.
  induction p as [p IH|p IH|]; cbn [digits2_pos]; [| |cbn; lia].
  all: rewrite Pos2Z.inj_succ;
    replace (Z.succ (Z.pos (digits2_pos p)) - 1)
      with (Z.pos (digits2_pos p) - 1 + 1) by lia;
    rewrite Z.pow_succ_r by lia;
    assert (0 <= Z.pos (digits2_pos p) - 1)
      by (destruct (digits2_pos p); lia);
    rewrite Z.pow_add_r by lia; lia.
Qed.

Lemma fexp_eq (x : Z) : fexp prec emax x = Z.max (x - 53) (-1074).
Proof. reflexivity. Qed.

Lemma loc_of_shr_record_of_loc (m : Z) (l : location) :
  loc_of_shr_record (shr_record_of_loc m l) = l
  /\ shr_m (shr_record_of_loc m l) = m.
Proof. destruct l as [|[| |]]; split; reflexivity. Qed.

(** One shift to the right halves the mantissa and updates the
    location to that of the new fraction. *)
Lemma shr_1_spec (mrs : shr_record) (r den : Z) :
  0 <= shr_m mrs -> 0 <= r < den ->
  loc_of_shr_record mrs = loc_of r den ->
  shr_m (shr_1 mrs) = shr_m mrs / 2
  /\ loc_of_shr_record (shr_1 mrs) =
     loc_of (shr_m mrs mod 2 * den + r) (2 * den).
Proof.
  destruct mrs as [m rb sb]. cbn [shr_m]. intros Hm Hr Hloc.
  assert (Hcase : (rb = false /\ sb = false /\ r = 0)
                  \/ (rb = false /\ sb = true /\ 0 < r /\ 2 * r < den)
                  \/ (rb = true /\ sb = false /\ 2 * r = den)
                  \/ (rb = true /\ sb = true /\ 2 * r > den)).
  { unfold loc_of in Hloc. cbn [loc_of_shr_record] in Hloc.
    destruct (Z.eqb_spec r 0) as [E|E].
    - destruct rb, sb; try discriminate. left. auto.
    - right.
      destruct (Z.compare_spec (2 * r) den); destruct rb, sb;
        try discriminate;
        first [ left; repeat split; (reflexivity || lia)
              | right; left; repeat split; (reflexivity || lia)
              | right; right; repeat split; (reflexivity || lia) ]. }
  assert (Hdiv : m = 2 * (m / 2) + m mod 2) by (apply Z.div_mod; lia).
  assert (Hmod : 0 <= m mod 2 < 2) by (apply Z.mod_pos_bound; lia).
  set (t := m mod 2) in *. assert (Ht : t = 0 \/ t = 1) by lia.
  clearbody t. clear Hmod.
  destruct Ht; subst t;
  destruct m as [|[p|p|]|]; try lia;
    (split; [cbn [shr_1 shr_m]; try reflexivity; lia|]);
    cbn [shr_1 loc_of_shr_record orb];
    unfold loc_of;
    destruct Hcase as [(-> & -> & ?)|[(-> & -> & ?)|[(-> & -> & ?)|(-> & -> & ?)]]];
    cbn [orb];
    match goal with
    | |- context [?a =? 0] => destruct (Z.eqb_spec a 0)
    end;
    try match goal with
    | |- context [?a ?= ?b] => destruct (Z.compare_spec a b)
    end; try reflexivity; exfalso; lia.
Qed.

(** An invariant indexed by the number of steps is carried through
    [iter_pos]. *)
Lemma iter_pos_invariant {A : Type} (f : A -> A) (P : Z -> A -> Prop) :
  (forall k x, 0 <= k -> P k x -> P (k + 1) (f x)) ->
  forall p k x, 0 <= k -> P k x -> P (k + Z.pos p) (iter_pos f p x).
Proof.
  intros Hstep. induction p as [p IH|p IH|]; intros k x Hk HP; cbn [iter_pos].
  - replace (k + Z.pos p~1) with (k + 1 + Z.pos p + Z.pos p) by lia.
    apply IH; [lia|]. apply IH; [lia|]. apply Hstep; assumption.
  - replace (k + Z.pos p~0) with (k + Z.pos p + Z.pos p) by lia.
    apply IH; [lia|]. apply IH; assumption.
  - apply Hstep; assumption.
Qed.

Lemma shr_iter_spec (mx r den : Z) (p : positive) :
  0 <= mx -> 0 <= r < den ->
  let mrs := iter_pos shr_1 p (shr_record_of_loc mx (loc_of r den)) in
  shr_m mrs = mx / 2 ^ Z.pos p
  /\ loc_of_shr_record mrs =
     loc_of (mx mod 2 ^ Z.pos p * den + r) (2 ^ Z.pos p * den).
Proof.
  intros Hmx Hr.
  pose (P := fun (k : Z) (mrs : shr_record) =>
               shr_m mrs = mx / 2 ^ k
               /\ loc_of_shr_record mrs =
                  loc_of (mx mod 2 ^ k * den + r) (2 ^ k * den)).
  change (P (Z.pos p) (iter_pos shr_1 p (shr_record_of_loc mx (loc_of r den)))).
  replace (Z.pos p) with (0 + Z.pos p) at 1 by lia.
  apply iter_pos_invariant; [|lia|].
  - intros k mrs Hk [Hm Hl].
    assert (Hpow : 0 < 2 ^ k) by (apply Z.pow_pos_nonneg; lia).
    assert (Hmod : 0 <= mx mod 2 ^ k < 2 ^ k) by (apply Z.mod_pos_bound; lia).
    assert (Hdiv : 0 <= mx / 2 ^ k) by (apply Z.div_pos; lia).
    destruct (shr_1_spec mrs (mx mod 2 ^ k * den + r) (2 ^ k * den))
      as [Hm' Hl']; [lia | nia | exact Hl |].
    unfold P. rewrite Hm', Hl', Hm.
    rewrite Z.pow_add_r, Z.pow_1_r by lia.
    split; [apply Z.div_div; lia|].
    rewrite (Z.rem_mul_r mx (2 ^ k) 2) by lia.
    f_equal; ring.
  - unfold P. destruct (loc_of_shr_record_of_loc mx (loc_of r den)) as [Hl Hm].
    rewrite Hl, Hm, Z.pow_0_r, Z.div_1_r, Z.mod_1_r.
    split; [reflexivity | f_equal; ring].
Qed.

(** Rounding to nearest moves the mantissa by at most one half. *)
Lemma round_nearest_even_spec (m r den : Z) :
  0 <= r < den ->
  let R := round_nearest_even m (loc_of r den) in
  m <= R <= m + 1
  /\ - den <= 2 * (den * R - (den * m + r)) <= den.
Proof.
  intros Hr. unfold loc_of, round_nearest_even.
  destruct (Z.eqb_spec r 0) as [E|E]; [lia|].
  destruct (Z.compare_spec (2 * r) den); [destruct (Z.even m)| |]; lia.
Qed.

Lemma shr_nonpos (mrs : shr_record) (e z : Z) :
  z <= 0 -> shr mrs e z = (mrs, e).
Proof. destruct z; [reflexivity | lia | reflexivity]. Qed.

Lemma shr_spec (mx ex r den z : Z) :
  0 <= mx -> 0 <= r < den ->
  let n := Z.max 0 z in
  exists mrs,
    shr (shr_record_of_loc mx (loc_of r den)) ex z = (mrs, ex + n)
    /\ shr_m mrs = mx / 2 ^ n
    /\ loc_of_shr_record mrs = loc_of (mx mod 2 ^ n * den + r) (2 ^ n * den).
Proof.
  intros Hmx Hr n. destruct z as [|p|p].
  - eexists. split; [cbn; rewrite Z.add_0_r; reflexivity|].
    subst n. cbn [Z.max Z.compare].
    destruct (loc_of_shr_record_of_loc mx (loc_of r den)) as [Hl Hm].
    rewrite Hl, Hm, Z.pow_0_r, Z.div_1_r, Z.mod_1_r.
    split; [reflexivity | f_equal; ring].
  - eexists. split; [reflexivity|]. subst n.
    replace (Z.max 0 (Z.pos p)) with (Z.pos p) by lia.
    apply shr_iter_spec; assumption.
  - eexists. split; [cbn; rewrite Z.add_0_r; reflexivity|].
    subst n. replace (Z.max 0 (Z.neg p)) with 0 by lia.
    destruct (loc_of_shr_record_of_loc mx (loc_of r den)) as [Hl Hm].
    rewrite Hl, Hm, Z.pow_0_r, Z.div_1_r, Z.mod_1_r.
    split; [reflexivity | f_equal; ring].
Qed.

Lemma Zdigits2_bounds (m : Z) :
  0 < m -> 2 ^ (Zdigits2 m - 1) <= m < 2 ^ Zdigits2 m.
Proof.
  destruct m as [|p|p]; try lia. intros _. apply digits2_bounds.
Qed.

Lemma Zdigits2_le (m k : Z) : 0 <= k -> 0 <= m < 2 ^ k -> Zdigits2 m <= k.
Proof.
  intros Hk [Hm Hlt]. destruct (Z.eq_dec m 0) as [->|Hne]; [cbn; lia|].
  destruct (Zdigits2_bounds m) as [Hlo _]; [lia|].
  destruct (Z.le_gt_cases (Zdigits2 m) k) as [|Hgt]; [assumption|].
  assert (2 ^ k <= 2 ^ (Zdigits2 m - 1)) by (apply Z.pow_le_mono_r; lia).
  lia.
Qed.

(** [binary_round_aux] returns a mantissa [R] of at most 54 bits at the
    exponent [ex + n], where [n] is the number of bits shifted out, and
    [R * 2^n] is within [2^n / 2] of the exact mantissa. *)
Lemma binary_round_aux_spec (sx : bool) (mx ex r den : Z) :
  0 < mx -> 0 <= r < den ->
  let n := Z.max 0 (fexp prec emax (Zdigits2 mx + ex) - ex) in
  ex + n <= 970 ->
  exists R,
    0 <= R <= 2 ^ 53
    /\ - (2 ^ n * den) <= 2 * (2 ^ n * den * R - (den * mx + r)) <= 2 ^ n * den
    /\ binary_round_aux prec emax sx mx ex (loc_of r den) = rounded sx R (ex + n).
Proof.
  intros Hmx Hr n Hov.
  unfold binary_round_aux, shr_fexp.
  destruct (shr_spec mx ex r den (fexp prec emax (Zdigits2 mx + ex) - ex))
    as (mrs & Hshr & Hm & Hl); [lia | exact Hr |].
  fold n in Hshr, Hm, Hl. rewrite Hshr, Hm, Hl.
  assert (Hn : 0 <= n) by (subst n; lia).
  assert (Hpow : 0 < 2 ^ n) by (apply Z.pow_pos_nonneg; lia).
  assert (Hmod : 0 <= mx mod 2 ^ n < 2 ^ n) by (apply Z.mod_pos_bound; lia).
  assert (Hdm : mx = 2 ^ n * (mx / 2 ^ n) + mx mod 2 ^ n)
    by (apply Z.div_mod; lia).
  assert (Hdiv : 0 <= mx / 2 ^ n) by (apply Z.div_pos; lia).
  destruct (round_nearest_even_spec (mx / 2 ^ n) (mx mod 2 ^ n * den + r)
              (2 ^ n * den)) as [HR Herr]; [nia|].
  set (R := round_nearest_even (mx / 2 ^ n)
              (loc_of (mx mod 2 ^ n * den + r) (2 ^ n * den))) in *.
  assert (Hlt : mx / 2 ^ n < 2 ^ 53).
  { apply Z.div_lt_upper_bound; [lia|].
    destruct (Zdigits2_bounds mx Hmx) as [_ Hd].
    rewrite <- Z.pow_add_r by lia.
    assert (2 ^ Zdigits2 mx <= 2 ^ (n + 53)).
    { apply Z.pow_le_mono_r; [lia|]. subst n. rewrite fexp_eq. lia. }
    lia. }
  assert (Hemin : -1074 <= ex + n) by (subst n; rewrite fexp_eq; lia).
  exists R. split; [lia|]. split; [nia|].
  unfold rounded.
  destruct (Z.eqb_spec R 0) as [E0|E0].
  - rewrite E0. cbn [Zdigits2].
    rewrite shr_nonpos by (rewrite fexp_eq; lia). reflexivity.
  - destruct (Z.ltb_spec R (2 ^ 53)) as [Elt|Ege].
    + rewrite shr_nonpos.
      * cbn [shr_m shr_record_of_loc].
        destruct R as [|q|q]; try lia. cbn [Z.to_pos].
        replace (ex + n <=? emax - prec) with true; [reflexivity|].
        symmetry. apply Z.leb_le. unfold emax, prec. lia.
      * assert (Zdigits2 R <= 53) by (apply Zdigits2_le; lia).
        rewrite fexp_eq. lia.
    + assert (ER : R = 2 ^ 53) by lia. rewrite ER.
      change (Zdigits2 (2 ^ 53)) with 54.
      replace (fexp prec emax (54 + (ex + n)) - (ex + n)) with 1
        by (rewrite fexp_eq; lia).
      cbn [shr shr_record_of_loc iter_pos].
      change (shr_1 _) with
        {| shr_m := 2 ^ 52; shr_r := false; shr_s := false |}.
      cbn [shr_m].
      change (2 ^ 52) with (Z.pos (Z.to_pos (2 ^ 53 / 2))).
      replace (ex + n + 1 <=? emax - prec) with true; [reflexivity|].
      symmetry. apply Z.leb_le. unfold emax, prec. lia.
Qed.

Local Open Scope Q_scope.

Lemma pow2_pos (z : Z) : 0 < pow2 z.
Proof. apply Qpower_0_lt. reflexivity. Qed.

Lemma pow2_add (a b : Z) : pow2 (a + b) == pow2 a * pow2 b.
Proof. apply Qpower_plus. discriminate. Qed.

Lemma pow2_inject (k : Z) : (0 <= k)%Z -> inject_Z (2 ^ k) == pow2 k.
Proof. intros Hk. apply Zpower_Qpower. exact Hk. Qed.

Lemma pow2_le (a b : Z) : (a <= b)%Z -> pow2 a <= pow2 b.
Proof. intros H. apply Qpower_le_compat_l; [exact H | discriminate]. Qed.

Lemma pow2_lt_inv (a b : Z) : pow2 a < pow2 b -> (a < b)%Z.
Proof. intros H. apply (Qpower_lt_compat_l_inv (2 # 1)); [exact H | reflexivity]. Qed.

Lemma pow2_succ (z : Z) : pow2 (z + 1) == 2 * pow2 z.
Proof. rewrite pow2_add. change (pow2 1) with (2 # 1). ring. Qed.

Lemma inject_Z_le (a b : Z) : (a <= b)%Z -> inject_Z a <= inject_Z b.
Proof. intros H. rewrite <- Zle_Qle. exact H. Qed.

Ltac push_inject H :=
  unfold Z.sub in H;
  repeat progress
    rewrite ?inject_Z_opp, ?inject_Z_mult, ?inject_Z_plus in H.

(** The same on rational numbers: the result is within half a unit in
    the last place, [2^e' / 2], of the exact value [X]. *)
Lemma binary_round_aux_Q (sx : bool) (mx ex r den : Z) (X : Q) :
  (0 < mx)%Z -> (0 <= r < den)%Z ->
  X * inject_Z den == inject_Z (den * mx + r) * pow2 ex ->
  let e' := (ex + Z.max 0 (fexp prec emax (Zdigits2 mx + ex) - ex))%Z in
  (e' <= 970)%Z ->
  exists R,
    (0 <= R <= 2 ^ 53)%Z
    /\ binary_round_aux prec emax sx mx ex (loc_of r den) = rounded sx R e'
    /\ inject_Z R * pow2 e' - X <= pow2 e' * (1 # 2)
    /\ X - inject_Z R * pow2 e' <= pow2 e' * (1 # 2).
Proof.
  intros Hmx Hr HX e' Hov.
  destruct (binary_round_aux_spec sx mx ex r den Hmx Hr Hov)
    as (R & HR & Herr & Heq).
  exists R. split; [exact HR|]. split; [exact Heq|].
  set (n := Z.max 0 (fexp prec emax (Zdigits2 mx + ex) - ex)) in *.
  assert (Hn : (0 <= n)%Z) by (subst n; lia).
  assert (He' : pow2 e' == inject_Z (2 ^ n) * pow2 ex).
  { unfold e'. rewrite pow2_add, pow2_inject by exact Hn. ring. }
  destruct Herr as [Hlo Hhi].
  apply inject_Z_le in Hlo, Hhi.
  push_inject Hlo. push_inject Hhi.
  rewrite inject_Z_plus, inject_Z_mult in HX.
  pose proof (pow2_pos ex) as Hp.
  assert (Hden : 0 < inject_Z den).
  { change 0 with (inject_Z 0). rewrite <- Zlt_Qlt. lia. }
  rewrite He'.
  set (a := inject_Z (2 ^ n)) in *. set (p := pow2 ex) in *.
  set (dd := inject_Z den) in *. set (RR := inject_Z R) in *.
  set (mm := inject_Z mx) in *. set (rr := inject_Z r) in *.
  change (inject_Z 2) with 2 in *.
  split.
  - apply (Qmult_le_r _ _ dd Hden).
    setoid_replace ((RR * (a * p) - X) * dd)
      with (p * (a * dd * RR - (dd * mm + rr)))
      by (transitivity (RR * a * p * dd - X * dd); [ring | rewrite HX; ring]).
    setoid_replace (a * p * (1 # 2) * dd) with (p * (a * dd * (1 # 2))) by ring.
    apply Qmult_le_l; [exact Hp | lra].
  - apply (Qmult_le_r _ _ dd Hden).
    setoid_replace ((X - RR * (a * p)) * dd)
      with (p * ((dd * mm + rr) - a * dd * RR))
      by (transitivity (X * dd - RR * a * p * dd); [ring | rewrite HX; ring]).
    setoid_replace (a * p * (1 # 2) * dd) with (p * (a * dd * (1 # 2))) by ring.
    apply Qmult_le_l; [exact Hp | lra].
Qed.

Lemma SF2Q_rounded (sx : bool) (R e : Z) :
  (0 <= R <= 2 ^ 53)%Z ->
  SF2Q (rounded sx R e) == signed sx (inject_Z R * pow2 e).
Proof.
  intros HR. unfold rounded, signed.
  destruct (Z.eqb_spec R 0) as [E0|E0].
  - rewrite E0. cbn [SF2Q]. destruct sx; ring.
  - destruct (Z.ltb_spec R (2 ^ 53)) as [Elt|Ege]; cbn [SF2Q].
    + rewrite Z2Pos.id by lia. destruct sx; reflexivity.
    + assert (ER : R = (2 ^ 53)%Z) by lia. rewrite ER.
      change (Z.pos (Z.to_pos (2 ^ 53 / 2))) with (2 ^ 52)%Z.
      change (inject_Z (2 ^ 53)) with (2 * inject_Z (2 ^ 52)).
      destruct sx; rewrite pow2_succ; ring.
Qed.

Lemma shiftl_nonpos (a e : Z) :
  (e <= 0)%Z -> Z.shiftl a e = (a / 2 ^ (- e))%Z.
Proof.
  apply Z.shiftl_div_pow2.
Qed.

(** [int] of a rounded result truncates its magnitude. *)
Lemma int_of_float_rounded (sx : bool) (R e : Z) :
  (0 <= R <= 2 ^ 53)%Z -> (e <= 0)%Z ->
  int_of_float (rounded sx R e) =
  Ok (let v := (R / 2 ^ (- e))%Z in if sx then (- v)%Z else v).
Proof.
  intros HR He. unfold rounded.
  assert (Hpow : (0 < 2 ^ (- e))%Z) by (apply Z.pow_pos_nonneg; lia).
  destruct (Z.eqb_spec R 0) as [E0|E0].
  - rewrite E0. cbn [int_of_float]. rewrite Z.div_0_l by lia.
    destruct sx; reflexivity.
  - destruct (Z.ltb_spec R (2 ^ 53)) as [Elt|Ege]; cbn [int_of_float].
    + rewrite Z2Pos.id by lia.
      rewrite shiftl_nonpos by lia. reflexivity.
    + assert (ER : R = (2 ^ 53)%Z) by lia. rewrite ER.
      change (Z.pos (Z.to_pos (2 ^ 53 / 2))) with (2 ^ 52)%Z.
      destruct (Z.eq_dec e 0) as [->|Hne]; [reflexivity|].
      rewrite shiftl_nonpos by lia.
      replace (- e)%Z with (1 + - (e + 1))%Z by lia.
      rewrite Z.pow_add_r, Z.pow_1_r by lia.
      change (2 ^ 53)%Z with (2 * 2 ^ 52)%Z.
      rewrite Z.div_mul_cancel_l by (try lia; apply Z.pow_nonzero; lia).
      reflexivity.
Qed.

(** The truncated magnitude [v] is at most the magnitude, which is at
    most [v + 1 - 2^e], being a multiple of [2^e]. *)
Lemma floor_rounded_Q (R e : Z) :
  (0 <= R)%Z -> (e <= 0)%Z ->
  let v := (R / 2 ^ (- e))%Z in
  inject_Z v <= inject_Z R * pow2 e
  /\ inject_Z R * pow2 e <= inject_Z v + 1 - pow2 e.
Proof.
  intros HR He v.
  assert (Hpow : (0 < 2 ^ (- e))%Z) by (apply Z.pow_pos_nonneg; lia).
  assert (Hdm : (R = 2 ^ (- e) * v + R mod 2 ^ (- e))%Z)
    by (apply Z.div_mod; lia).
  assert (Hmod : (0 <= R mod 2 ^ (- e) < 2 ^ (- e))%Z)
    by (apply Z.mod_pos_bound; lia).
  set (rho := (R mod 2 ^ (- e))%Z) in *.
  assert (HA : inject_Z (2 ^ (- e)) * pow2 e == 1).
  { rewrite pow2_inject by lia. rewrite <- pow2_add.
    replace (- e + e)%Z with 0%Z by lia. reflexivity. }
  pose proof (pow2_pos e) as Hp.
  assert (Hlo : 0 <= inject_Z rho * pow2 e).
  { apply Qmult_le_0_compat; [|lra].
    change 0 with (inject_Z 0). rewrite <- Zle_Qle. lia. }
  assert (Hr1 : inject_Z rho <= inject_Z (2 ^ (- e) - 1))
    by (apply inject_Z_le; lia).
  push_inject Hr1. change (inject_Z 1) with 1 in Hr1.
  assert (Hhi : inject_Z rho * pow2 e <= (inject_Z (2 ^ (- e)) - 1) * pow2 e).
  { apply Qmult_le_compat_r; [exact Hr1 | lra]. }
  assert (HRq : inject_Z R ==
                inject_Z (2 ^ (- e)) * inject_Z v + inject_Z rho)
    by (rewrite <- inject_Z_mult, <- inject_Z_plus, <- Hdm; reflexivity).
  rewrite HRq.
  set (A := inject_Z (2 ^ (- e))) in *. set (p := pow2 e) in *.
  set (vv := inject_Z v). set (rr := inject_Z rho) in *.
  assert (E1 : (A * vv + rr) * p == vv * (A * p) + rr * p) by ring.
  rewrite E1, HA.
  assert (E2 : (A - 1) * p == A * p - p) by ring.
  rewrite E2, HA in Hhi.
  split; lra.
Qed.

Local Open Scope Z_scope.

Lemma pos_iter_xO (p d : positive) :
  Z.pos (Pos.iter xO p d) = Z.pos p * 2 ^ Z.pos d.
Proof.
  induction d as [|d IH] using Pos.peano_ind.
  - cbn [Pos.iter]. lia.
  - rewrite Pos.iter_succ, Pos2Z.inj_xO, IH, Pos2Z.inj_succ, Z.pow_succ_r by lia.
    ring.
Qed.

Lemma Zdigits2_unique (m k : Z) :
  1 <= k -> 2 ^ (k - 1) <= m < 2 ^ k -> Zdigits2 m = k.
Proof.
  intros Hk [Hlo Hhi].
  assert (Hm : 0 < m).
  { assert (0 < 2 ^ (k - 1)) by (apply Z.pow_pos_nonneg; lia). lia. }
  destruct (Zdigits2_bounds m Hm) as [Hdlo Hdhi].
  assert (Hd : 1 <= Zdigits2 m) by (destruct m; cbn in *; lia).
  destruct (Z.lt_trichotomy (Zdigits2 m) k) as [Hlt|[Heq|Hgt]]; [|exact Heq|].
  - assert (2 ^ Zdigits2 m <= 2 ^ (k - 1)) by (apply Z.pow_le_mono_r; lia). lia.
  - assert (2 ^ k <= 2 ^ (Zdigits2 m - 1)) by (apply Z.pow_le_mono_r; lia). lia.
Qed.

Lemma binary_round_exact (sx : bool) (mz : positive) (ez : Z) :
  2 ^ 52 <= Z.pos mz < 2 ^ 53 -> -1074 <= ez <= 970 ->
  binary_round_aux prec emax sx (Z.pos mz) ez loc_Exact = S754_finite sx mz ez.
Proof.
  intros Hmz Hez.
  assert (Hd : Zdigits2 (Z.pos mz) = 53) by (apply Zdigits2_unique; lia).
  destruct (binary_round_aux_spec sx (Z.pos mz) ez 0 1) as (R & HR & Herr & Heq);
    [lia | lia | rewrite Hd, fexp_eq; lia |].
  change (loc_of 0 1) with loc_Exact in Heq. rewrite Heq.
  rewrite Hd, fexp_eq in Herr |- *.
  replace (Z.max 0 (Z.max (53 + ez - 53) (-1074) - ez)) with 0 in * by lia.
  rewrite Z.add_0_r. change (2 ^ 0) with 1 in Herr.
  assert (ER : R = Z.pos mz) by lia. rewrite ER. unfold rounded.
  replace (Z.pos mz =? 0) with false by (symmetry; apply Z.eqb_neq; lia).
  replace (Z.pos mz <? 2 ^ 53) with true by (symmetry; apply Z.ltb_lt; lia).
  reflexivity.
Qed.

(** [float(v)] for an integer of at most 53 bits is exact. *)
Lemma float_of_int_spec (sx : bool) (v : Z) :
  0 < v < 2 ^ 53 ->
  exists mz ez,
    float_of_int (if sx then - v else v) = Ok (S754_finite sx mz ez)
    /\ 2 ^ 52 <= Z.pos mz < 2 ^ 53
    /\ ez = Zdigits2 v - 53
    /\ Z.pos mz = v * 2 ^ (- ez).
Proof.
  intros Hv. destruct v as [|p|p]; try lia.
  destruct (Zdigits2_bounds (Z.pos p)) as [Hlo Hhi]; [lia|].
  assert (Hd : Zdigits2 (Z.pos p) <= 53) by (apply Zdigits2_le; lia).
  assert (Hd1 : 1 <= Zdigits2 (Z.pos p)) by (cbn; lia).
  set (dv := Zdigits2 (Z.pos p)) in *.
  assert (Hround : exists mz,
             shl_align p 0 (fexp prec emax (Z.pos (digits2_pos p) + 0))
             = (mz, dv - 53)
             /\ Z.pos mz = Z.pos p * 2 ^ (53 - dv)).
  { unfold shl_align. rewrite fexp_eq. fold (Zdigits2 (Z.pos p)). fold dv.
    replace (Z.max (dv + 0 - 53) (-1074) - 0) with (dv - 53) by lia.
    replace (Z.max (dv + 0 - 53) (-1074)) with (dv - 53) by lia.
    destruct (dv - 53) as [|d|d] eqn:E; try lia.
    - exists p. split; [reflexivity|].
      replace (53 - dv) with 0 by lia. lia.
    - exists (Pos.iter xO p d). split; [reflexivity|].
      rewrite pos_iter_xO. f_equal. f_equal. lia. }
  destruct Hround as (mz & Hshl & Hmz).
  assert (Hbounds : 2 ^ 52 <= Z.pos mz < 2 ^ 53).
  { assert (H52 : 2 ^ 52 = 2 ^ (dv - 1) * 2 ^ (53 - dv))
      by (rewrite <- Z.pow_add_r by lia; f_equal; lia).
    assert (H53 : 2 ^ 53 = 2 ^ dv * 2 ^ (53 - dv))
      by (rewrite <- Z.pow_add_r by lia; f_equal; lia).
    assert (0 < 2 ^ (53 - dv)) by (apply Z.pow_pos_nonneg; lia).
    rewrite Hmz, H52, H53.
    split; [apply Z.mul_le_mono_nonneg_r | apply Z.mul_lt_mono_pos_r]; lia. }
  exists mz, (dv - 53).
  split; [|split; [exact Hbounds | split; [reflexivity|]]].
  - unfold float_of_int.
    assert (Hbn : binary_normalize prec emax (if sx then - Z.pos p else Z.pos p)
                    0 false = S754_finite sx mz (dv - 53)).
    { destruct sx; cbn [Z.opp binary_normalize]; unfold binary_round;
        rewrite Hshl; apply binary_round_exact; lia. }
    rewrite Hbn. reflexivity.
  - rewrite Hmz. f_equal. f_equal. lia.
Qed.

Local Open Scope Q_scope.

Lemma pow2_le_inv (a b : Z) : pow2 a <= pow2 b -> (a <= b)%Z.
Proof.
  intros H. apply (Qpower_le_compat_l_inv (2 # 1)); [exact H | reflexivity].
Qed.

Lemma inject_Z_lt (a b : Z) : (a < b)%Z -> inject_Z a < inject_Z b.
Proof. intros H. rewrite <- Zlt_Qlt. exact H. Qed.

(** A positive mantissa with [d] digits and exponent [E] lies between
    [2^(d-1+E)] and [2^(d+E)]. *)
Lemma mantissa_bounds_Q (M E : Z) :
  (0 < M)%Z ->
  pow2 (Zdigits2 M - 1 + E) <= inject_Z M * pow2 E
  /\ inject_Z M * pow2 E < pow2 (Zdigits2 M + E).
Proof.
  intros HM. destruct (Zdigits2_bounds M HM) as [Hlo Hhi].
  assert (Hd : (1 <= Zdigits2 M)%Z) by (destruct M; cbn in *; lia).
  pose proof (pow2_pos E) as Hp.
  split.
  - rewrite pow2_add, <- (pow2_inject (Zdigits2 M - 1)) by lia.
    apply Qmult_le_compat_r; [apply inject_Z_le; exact Hlo | lra].
  - rewrite pow2_add, <- (pow2_inject (Zdigits2 M)) by lia.
    apply Qmult_lt_compat_r; [exact Hp | apply inject_Z_lt; exact Hhi].
Qed.

Lemma float_of_max_sample :
  float_of_int MAX_SAMPLE_VALUE = Ok (S754_finite false max_sample_mantissa (-38)).
Proof. vm_compute. reflexivity. Qed.

(** [int(sample * 32767)] for a finite sample of magnitude at most 1:
    the product is rounded to [R * 2^e1], within [2^e1 / 2] of the
    exact product, which is below [2^(e1 + 53)]. *)
Lemma int_sample_finite (sx : bool) (m : positive) (e : Z) :
  bounded prec emax m e = true ->
  inject_Z (Z.pos m) * pow2 e <= 1 ->
  exists R e1,
    (0 <= R <= 2 ^ 53)%Z /\ (e1 <= 0)%Z
    /\ int_sample (S754_finite sx m e) =
       Ok (let v := (R / 2 ^ (- e1))%Z in if sx then (- v)%Z else v)
    /\ inject_Z R * pow2 e1 - 32767 * (inject_Z (Z.pos m) * pow2 e)
       <= pow2 e1 * (1 # 2)
    /\ 32767 * (inject_Z (Z.pos m) * pow2 e) - inject_Z R * pow2 e1
       <= pow2 e1 * (1 # 2)
    /\ 32767 * (inject_Z (Z.pos m) * pow2 e) < pow2 (e1 + 53).
Proof.
  intros Hvalid Hle.
  set (M := (Z.pos m * Z.pos max_sample_mantissa)%Z).
  set (E := (e + -38)%Z).
  set (s := inject_Z (Z.pos m) * pow2 e) in *.
  assert (HM : (0 < M)%Z) by (subst M; lia).
  assert (HX : inject_Z M * pow2 E == 32767 * s).
  { subst M E s. rewrite inject_Z_mult, pow2_add.
    change (inject_Z (Z.pos max_sample_mantissa)) with (32767 * inject_Z (2 ^ 38)).
    assert (H38 : inject_Z (2 ^ 38) * pow2 (-38) == 1) by reflexivity.
    transitivity (32767 * (inject_Z (Z.pos m) * pow2 e)
                  * (inject_Z (2 ^ 38) * pow2 (-38))); [ring|].
    rewrite H38. ring. }
  destruct (mantissa_bounds_Q M E HM) as [Hlo Hhi].
  pose proof (pow2_pos e) as Hpe.
  assert (He : (e <= 0)%Z).
  { apply pow2_le_inv. change (pow2 0) with 1.
    assert (pow2 e <= s); [|lra]. subst s.
    setoid_replace (pow2 e) with (1 * pow2 e) at 1 by ring.
    apply Qmult_le_compat_r; [|lra].
    change 1 with (inject_Z 1). apply inject_Z_le. lia. }
  assert (HdE : (Zdigits2 M + E <= 15)%Z).
  { assert (Hlt : pow2 (Zdigits2 M - 1 + E) < pow2 15).
    { change (pow2 15) with 32768. lra. }
    apply pow2_lt_inv in Hlt. lia. }
  set (e1 := (E + Z.max 0 (fexp prec emax (Zdigits2 M + E) - E))%Z).
  assert (He1 : (e1 <= -38)%Z) by (subst e1 E; rewrite fexp_eq; lia).
  assert (He1' : (Zdigits2 M + E <= e1 + 53)%Z)
    by (subst e1; rewrite fexp_eq; lia).
  destruct (binary_round_aux_Q (xorb sx false) M E 0 1 (inject_Z M * pow2 E))
    as (R & HR & Heq & Hup & Hdown); [exact HM | lia | | fold e1; lia |].
  { rewrite Z.mul_1_l, Z.add_0_r. change (inject_Z 1) with 1. ring. }
  fold e1 in Heq, Hup, Hdown.
  exists R, e1. split; [exact HR|]. split; [lia|].
  split; [|split; [|split]].
  - unfold int_sample, float_mul_int. rewrite float_of_max_sample.
    cbn [bind SFmul].
    change (loc_Exact) with (loc_of 0 1).
    rewrite Pos2Z.inj_mul. fold M E. rewrite Heq.
    rewrite xorb_false_r. apply int_of_float_rounded; [exact HR | lia].
  - rewrite <- HX. exact Hup.
  - rewrite <- HX. exact Hdown.
  - rewrite <- HX. apply Qlt_le_trans with (1 := Hhi). apply pow2_le. exact He1'.
Qed.

Local Open Scope Z_scope.

Lemma new_location_spec (den r : Z) :
  0 <= r < den -> new_location den r = loc_of r den.
Proof.
  intros Hr. unfold new_location, new_location_even, new_location_odd, loc_of.
  destruct (Z.even den) eqn:Heven; destruct (Z.eqb_spec r 0) as [E|E];
    try reflexivity.
  rewrite Zeven_mod in Heven. apply Z.eqb_neq in Heven.
  destruct (Z.compare_spec (2 * r + 1) den);
    destruct (Z.compare_spec (2 * r) den); try reflexivity;
    exfalso; Z.div_mod_to_equations; lia.
Qed.

(** The quotient and remainder that the division by 32767.0 rounds. *)
Lemma div_core_max_sample (mz : positive) (ez : Z) :
  2 ^ 52 <= Z.pos mz < 2 ^ 53 -> -52 <= ez <= 0 ->
  SFdiv_core_binary prec emax (Z.pos mz) ez (Z.pos max_sample_mantissa) (-38) =
  let '(q, r) := Z.div_eucl (Z.pos mz * 2 ^ 53) (Z.pos max_sample_mantissa) in
  (q, ez - 15, new_location (Z.pos max_sample_mantissa) r).
Proof.
  intros Hmz Hez. unfold SFdiv_core_binary.
  rewrite (Zdigits2_unique (Z.pos mz) 53) by lia.
  change (Zdigits2 (Z.pos max_sample_mantissa)) with 53.
  cbv zeta. rewrite fexp_eq.
  replace (Z.min (Z.max (53 + ez - (53 + -38) - 53) (-1074)) (ez - -38))
    with (ez - 15) by lia.
  replace (ez - -38 - (ez - 15)) with 53 by lia.
  cbv iota beta. rewrite Z.shiftl_mul_pow2 by lia. reflexivity.
Qed.

Lemma float_sample_zero : float_sample 0 = Ok (S754_zero false).
Proof. vm_compute. reflexivity. Qed.

(** [float(v) / 32767] for a non-zero 16-bit magnitude [v]: the
    quotient is rounded to [R2 * 2^e2], within [2^e2 / 2] of
    [v / 32767], which is at least [2^(e2 + 52)]. *)
Lemma float_sample_spec (sx : bool) (v : Z) :
  1 <= v <= 32767 ->
  exists R2 e2,
    0 <= R2 <= 2 ^ 53
    /\ float_sample (if sx then - v else v) = Ok (rounded sx R2 e2)
    /\ (inject_Z R2 * pow2 e2 - inject_Z v * (1 # 32767)
        <= pow2 e2 * (1 # 2))%Q
    /\ (inject_Z v * (1 # 32767) - inject_Z R2 * pow2 e2
        <= pow2 e2 * (1 # 2))%Q
    /\ (pow2 (e2 + 52) <= inject_Z v * (1 # 32767))%Q.
Proof.
  intros Hv.
  destruct (float_of_int_spec sx v) as (mz & ez & Hf & Hmz & Hez & Hval); [lia|].
  assert (Hdv : 1 <= Zdigits2 v <= 15).
  { split; [destruct v; cbn; lia | apply Zdigits2_le; lia]. }
  assert (Hez' : -52 <= ez <= -38) by lia.
  set (my := Z.pos max_sample_mantissa) in *.
  assert (Hmy : my = 32767 * 2 ^ 38) by reflexivity.
  pose proof (Z_div_mod (Z.pos mz * 2 ^ 53) my) as Hdm.
  destruct (Z.div_eucl (Z.pos mz * 2 ^ 53) my) as [q r] eqn:Hqr.
  destruct Hdm as [Hdm Hr]; [subst my; lia|].
  assert (Hq : 2 ^ 52 <= q < 2 ^ 54).
  { change (2 ^ 52) with 4503599627370496 in *.
    change (2 ^ 53) with 9007199254740992 in *.
    change (2 ^ 54) with 18014398509481984.
    change (32767 * 2 ^ 38) with 9006924376834048 in Hmy. lia. }
  assert (Hdq : 53 <= Zdigits2 q <= 54).
  { split.
    - destruct (Zdigits2_bounds q) as [_ Hhi]; [lia|].
      destruct (Z.le_gt_cases 53 (Zdigits2 q)) as [|Hlt]; [assumption|].
      assert (2 ^ Zdigits2 q <= 2 ^ 52) by (apply Z.pow_le_mono_r; lia). lia.
    - apply Zdigits2_le; lia. }
  set (X := (inject_Z v * (1 # 32767))%Q).
  set (e2 := ez - 15 + Z.max 0 (fexp prec emax (Zdigits2 q + (ez - 15)) - (ez - 15))).
  assert (He2 : e2 = Zdigits2 q - 1 + (ez - 15) - 52)
    by (subst e2; rewrite fexp_eq; lia).
  assert (HX : (X * inject_Z my == inject_Z (my * q + r) * pow2 (ez - 15))%Q).
  { rewrite <- Hdm, Hval. subst X.
    rewrite !inject_Z_mult, !pow2_inject by lia.
    change (inject_Z my) with (32767 * pow2 38)%Q.
    assert (Hp : (pow2 (- ez) * pow2 53 * pow2 (ez - 15) == pow2 38)%Q).
    { rewrite <- !pow2_add. replace (- ez + 53 + (ez - 15)) with 38 by lia.
      reflexivity. }
    transitivity (inject_Z v * (pow2 (- ez) * pow2 53 * pow2 (ez - 15)))%Q;
      [rewrite Hp; field | ring]. }
  destruct (binary_round_aux_Q (xorb sx false) q (ez - 15) r my X)
    as (R2 & HR2 & Heq & Hup & Hdown); [lia | lia | exact HX | fold e2; lia |].
  fold e2 in Heq, Hup, Hdown.
  exists R2, e2. split; [exact HR2|]. split; [|split; [exact Hup | split; [exact Hdown|]]].
  - unfold float_sample. rewrite Hf. cbn [bind]. unfold float_div_int.
    rewrite float_of_max_sample. cbn [bind SFdiv]. fold my.
    rewrite div_core_max_sample by lia. fold my. rewrite Hqr.
    rewrite new_location_spec by lia.
    rewrite Heq, xorb_false_r. reflexivity.
  - destruct (mantissa_bounds_Q q (ez - 15)) as [Hlo _]; [lia|].
    replace (e2 + 52) with (Zdigits2 q - 1 + (ez - 15)) by lia.
    apply Qle_trans with (1 := Hlo).
    assert (Hmyq : (0 < inject_Z my)%Q) by reflexivity.
    apply (Qmult_le_r _ _ (inject_Z my) Hmyq). rewrite HX.
    pose proof (pow2_pos (ez - 15)) as Hp.
    setoid_replace (inject_Z q * pow2 (ez - 15) * inject_Z my)%Q
      with (inject_Z (my * q) * pow2 (ez - 15))%Q
      by (rewrite inject_Z_mult; ring).
    apply Qmult_le_compat_r; [apply inject_Z_le; lia | lra].
Qed.

Local Open Scope Q_scope.

Lemma SFleb_finite_pos (m1 m2 : positive) (e1 e2 : Z) :
  SFleb (S754_finite false m1 e1) (S754_finite false m2 e2) = true ->
  (e1 < e2 \/ (e1 = e2 /\ Z.pos m1 <= Z.pos m2))%Z.
Proof.
  unfold SFleb, SFcompare.
  destruct (Z.compare_spec e1 e2) as [E|E|E]; intros H;
    [right | left; exact E | discriminate].
  split; [exact E|]. rewrite Pos.compare_cont_spec in H.
  unfold Pos.switch_Eq in H.
  destruct (Pos.compare_spec m1 m2) as [E'|E'|E']; try discriminate; lia.
Qed.

Lemma SFleb_finite_neg (m1 m2 : positive) (e1 e2 : Z) :
  SFleb (S754_finite true m1 e1) (S754_finite true m2 e2) = true ->
  (e2 < e1 \/ (e1 = e2 /\ Z.pos m2 <= Z.pos m1))%Z.
Proof.
  unfold SFleb, SFcompare.
  destruct (Z.compare_spec e1 e2) as [E|E|E]; intros H;
    [right | discriminate | left; exact E].
  split; [exact E|]. rewrite Pos.compare_cont_spec in H.
  unfold Pos.switch_Eq in H.
  destruct (Pos.compare_spec m1 m2) as [E'|E'|E']; try discriminate; lia.
Qed.

Lemma unit_sample_finite (sx : bool) (m : positive) (e : Z) :
  unit_sample (S754_finite sx m e) ->
  bounded prec emax m e = true /\ inject_Z (Z.pos m) * pow2 e <= 1.
Proof.
  intros (Hvalid & Hlo & Hhi). cbn [valid_binary] in Hvalid.
  split; [exact Hvalid|].
  assert (Hd : (Z.pos m < 2 ^ 53)%Z).
  { unfold bounded, canonical_mantissa in Hvalid.
    apply andb_true_iff in Hvalid. destruct Hvalid as [Hc _].
    apply Z.eqb_eq in Hc. rewrite fexp_eq in Hc.
    destruct (digits2_bounds m) as [_ Hm].
    assert (2 ^ Z.pos (digits2_pos m) <= 2 ^ 53)%Z
      by (apply Z.pow_le_mono_r; lia).
    lia. }
  assert (Hcase : (e < -52 \/ (e = -52 /\ Z.pos m <= 2 ^ 52))%Z).
  { unfold float_one, SFopp in Hlo, Hhi. destruct sx.
    - apply SFleb_finite_neg in Hlo.
      change (Z.pos 4503599627370496) with (2 ^ 52)%Z in Hlo. lia.
    - discriminate Hlo || (apply SFleb_finite_pos in Hhi;
      change (Z.pos 4503599627370496) with (2 ^ 52)%Z in Hhi; lia). }
  pose proof (pow2_pos e) as Hp.
  destruct Hcase as [He|[-> Hm]].
  - assert (Hpe : pow2 e <= pow2 (-53)) by (apply pow2_le; lia).
    assert (Hmq : inject_Z (Z.pos m) <= inject_Z (2 ^ 53))
      by (apply inject_Z_le; lia).
    apply Qle_trans with (inject_Z (2 ^ 53) * pow2 e).
    + apply Qmult_le_compat_r; [exact Hmq | lra].
    + assert (H1 : inject_Z (2 ^ 53) * pow2 (-53) == 1) by reflexivity.
      rewrite <- H1.
      apply Qmult_le_l; [reflexivity | exact Hpe].
  - assert (H1 : inject_Z (2 ^ 52) * pow2 (-52) == 1) by reflexivity.
    rewrite <- H1.
    apply Qmult_le_compat_r; [apply inject_Z_le; exact Hm|].
    apply Qlt_le_weak, pow2_pos.
Qed.

Lemma Qabs_signed_diff (sx : bool) (a b c : Q) :
  a - b <= c -> b - a <= c -> Qabs (signed sx a - signed sx b) <= c.
Proof.
  intros H1 H2. apply Qabs_Qle_condition. unfold signed.
  destruct sx; split; lra.
Qed.

(** The exponent of the quotient is at least 15 below the exponent of
    the product when the truncated integer [v] is below the product. *)
Lemma exponent_gap (v e1 e2 : Z) (X : Q) :
  (1 <= v <= 32767)%Z ->
  inject_Z v < X -> X <= 32767 -> X < pow2 (e1 + 53) ->
  pow2 (e2 + 52) <= inject_Z v * (1 # 32767) ->
  (e2 + 15 <= e1)%Z.
Proof.
  intros Hv HvX HX HXP Hq.
  destruct (Z.le_gt_cases (e2 + 15) e1) as [|Hgt]; [assumption|exfalso].
  assert (Hle : pow2 (e1 + 38) <= pow2 (e2 + 52)) by (apply pow2_le; lia).
  assert (HP : pow2 (e1 + 53) == 32768 * pow2 (e1 + 38)).
  { replace (e1 + 53)%Z with (15 + (e1 + 38))%Z by lia.
    rewrite pow2_add. reflexivity. }
  destruct (Z.le_gt_cases 0 (e1 + 53)) as [Hk|Hk].
  - rewrite <- (pow2_inject (e1 + 53)) in HXP, HP by exact Hk.
    set (K := (2 ^ (e1 + 53))%Z) in *.
    assert (HvK : (v < K)%Z).
    { rewrite Zlt_Qlt. lra. }
    assert (H1 : inject_Z (32767 * K) <= inject_Z (32768 * v)).
    { rewrite !inject_Z_mult.
      change (inject_Z 32767) with 32767. change (inject_Z 32768) with 32768.
      lra. }
    rewrite <- Zle_Qle in H1.
    assert (Hv32 : inject_Z v < inject_Z 32767).
    { change (inject_Z 32767) with 32767. lra. }
    rewrite <- Zlt_Qlt in Hv32. lia.
  - assert (Hhalf : pow2 (e1 + 53) <= pow2 (-1)) by (apply pow2_le; lia).
    change (pow2 (-1)) with (1 # 2) in Hhalf.
    assert (H1 : inject_Z 1 <= inject_Z v) by (apply inject_Z_le; lia).
    change (inject_Z 1) with 1 in H1. lra.
Qed.

(** ** Decoded samples are samples in [-1.0, 1.0] *)

Local Open Scope Q_scope.

Lemma bounded_53 (m : positive) (e : Z) :
  (2 ^ 52 <= Z.pos m < 2 ^ 53)%Z -> (-1074 <= e <= 971)%Z ->
  bounded prec emax m e = true.
Proof.
  intros Hm He. unfold bounded, canonical_mantissa.
  assert (Hd : Z.pos (digits2_pos m) = 53%Z).
  { change (Z.pos (digits2_pos m)) with (Zdigits2 (Z.pos m)).
    apply Zdigits2_unique; [lia | exact Hm]. }
  rewrite Hd, fexp_eq. apply andb_true_iff. split.
  - apply Z.eqb_eq. lia.
  - apply Z.leb_le. unfold emax, prec. lia.
Qed.

Lemma float_sample_finite (sx : bool) (v : Z) :
  (1 <= v <= 32767)%Z ->
  exists m e e2,
    float_sample (if sx then (- v)%Z else v) = Ok (S754_finite sx m e)
    /\ bounded prec emax m e = true
    /\ inject_Z (Z.pos m) * pow2 e - inject_Z v * (1 # 32767)
       <= pow2 e2 * (1 # 2)
    /\ inject_Z v * (1 # 32767) - inject_Z (Z.pos m) * pow2 e
       <= pow2 e2 * (1 # 2)
    /\ pow2 (e2 + 52) <= inject_Z v * (1 # 32767)
    /\ (e2 <= -52)%Z
    /\ (2 ^ 52 <= Z.pos m < 2 ^ 53)%Z.
Proof.
  intros Hv.
  destruct (float_sample_spec sx v Hv) as (R2 & e2 & HR & Hf & Hup & Hlo & Hq).
  pose proof (pow2_pos e2) as Hu.
  assert (Hv1 : inject_Z 1 <= inject_Z v) by (apply inject_Z_le; lia).
  assert (Hv2 : inject_Z v <= inject_Z 32767) by (apply inject_Z_le; lia).
  change (inject_Z 1) with 1 in Hv1. change (inject_Z 32767) with 32767 in Hv2.
  assert (He2 : (e2 <= -52)%Z).
  { assert (H : (e2 + 52 <= 0)%Z); [|lia].
    apply pow2_le_inv. change (pow2 0) with 1. lra. }
  assert (He2' : (-1074 <= e2)%Z).
  { assert (H : (-70 < e2)%Z); [|lia].
    apply pow2_lt_inv.
    assert (HR' : inject_Z R2 * pow2 e2 <= inject_Z (2 ^ 53) * pow2 e2).
    { apply Qmult_le_compat_r; [apply inject_Z_le; lia | lra]. }
    change (inject_Z (2 ^ 53)) with 9007199254740992 in HR'.
    assert (H70 : pow2 (-70) == 1 # 1180591620717411303424) by reflexivity.
    rewrite H70. lra. }
  assert (H52 : (2 ^ 52 <= R2)%Z).
  { assert (H : (2 ^ 52 - 1 < R2)%Z); [|lia].
    rewrite Zlt_Qlt.
    assert (Hs : pow2 (e2 + 52) == inject_Z (2 ^ 52) * pow2 e2).
    { rewrite Z.add_comm, pow2_add, <- pow2_inject by lia. ring. }
    rewrite Hs in Hq.
    assert (Hm : (inject_Z (2 ^ 52 - 1)) * pow2 e2 < inject_Z R2 * pow2 e2).
    { change (inject_Z (2 ^ 52 - 1)) with 4503599627370495.
      change (inject_Z (2 ^ 52)) with 4503599627370496 in Hq. lra. }
    apply Qmult_lt_r in Hm; assumption. }
  destruct (Z.eq_dec R2 (2 ^ 53)) as [E|NE].
  - subst R2. exists (Z.to_pos (2 ^ 53 / 2)), (e2 + 1)%Z, e2.
    assert (Hval : inject_Z (Z.pos (Z.to_pos (2 ^ 53 / 2))) * pow2 (e2 + 1)
                   == inject_Z (2 ^ 53) * pow2 e2).
    { rewrite pow2_succ.
      change (inject_Z (Z.pos (Z.to_pos (2 ^ 53 / 2)))) with 4503599627370496.
      change (inject_Z (2 ^ 53)) with 9007199254740992. ring. }
    assert (Hm : (2 ^ 52 <= Z.pos (Z.to_pos (2 ^ 53 / 2)) < 2 ^ 53)%Z)
      by (vm_compute; split; [discriminate | reflexivity]).
    rewrite Hval. repeat split; try assumption; try apply Hm.
    apply bounded_53; [exact Hm | lia].
  - exists (Z.to_pos R2), e2, e2.
    assert (Hr : rounded sx R2 e2 = S754_finite sx (Z.to_pos R2) e2).
    { unfold rounded.
      destruct (Z.eqb_spec R2 0) as [E0|_]; [lia|].
      destruct (Z.ltb_spec R2 (2 ^ 53)) as [_|G]; [reflexivity | lia]. }
    rewrite Hr in Hf. rewrite Z2Pos.id by lia.
    repeat split; try assumption; try lia.
    apply bounded_53; [rewrite Z2Pos.id by lia; lia | lia].
Qed.

Local Open Scope Z_scope.

Lemma SFleb_finite_pos_intro (m1 m2 : positive) (e1 e2 : Z) :
  e1 < e2 \/ (e1 = e2 /\ Z.pos m1 <= Z.pos m2) ->
  SFleb (S754_finite false m1 e1) (S754_finite false m2 e2) = true.
Proof.
  unfold SFleb, SFcompare.
  destruct (Z.compare_spec e1 e2) as [E|E|E]; intros H;
    [|reflexivity | lia].
  rewrite Pos.compare_cont_spec. unfold Pos.switch_Eq.
  destruct (Pos.compare_spec m1 m2) as [E'|E'|E']; try reflexivity; lia.
Qed.

Lemma SFleb_finite_neg_intro (m1 m2 : positive) (e1 e2 : Z) :
  e2 < e1 \/ (e1 = e2 /\ Z.pos m2 <= Z.pos m1) ->
  SFleb (S754_finite true m1 e1) (S754_finite true m2 e2) = true.
Proof.
  unfold SFleb, SFcompare.
  destruct (Z.compare_spec e1 e2) as [E|E|E]; intros H;
    [| lia | reflexivity].
  rewrite Pos.compare_cont_spec. unfold Pos.switch_Eq.
  destruct (Pos.compare_spec m1 m2) as [E'|E'|E']; try reflexivity; lia.
Qed.

Local Open Scope Q_scope.

(** A normalised binary64 value of magnitude at most 1 lies between the
    floats -1.0 and 1.0. *)
Lemma unit_sample_intro (sx : bool) (m : positive) (e : Z) :
  bounded prec emax m e = true ->
  (2 ^ 52 <= Z.pos m)%Z ->
  inject_Z (Z.pos m) * pow2 e <= 1 ->
  unit_sample (S754_finite sx m e).
Proof.
  intros Hb Hm H1.
  pose proof (pow2_pos e) as Hu.
  assert (He : (e <= -52)%Z).
  { assert (H : (e + 52 <= 0)%Z); [|lia].
    apply pow2_le_inv. change (pow2 0) with 1.
    rewrite Z.add_comm, pow2_add, <- pow2_inject by lia.
    assert (inject_Z (2 ^ 52) * pow2 e <= inject_Z (Z.pos m) * pow2 e); [|lra].
    apply Qmult_le_compat_r; [apply inject_Z_le; exact Hm | lra]. }
  assert (Hcase : (e < -52 \/ (e = -52 /\ Z.pos m <= 2 ^ 52))%Z).
  { destruct (Z.eq_dec e (-52)) as [E|NE]; [right | left; lia].
    split; [exact E|]. subst e. rewrite Zle_Qle.
    assert (H52 : pow2 (-52) == 1 # 4503599627370496) by reflexivity.
    rewrite H52 in H1. change (inject_Z (2 ^ 52)) with 4503599627370496. lra. }
  split; [exact Hb|]. unfold float_one, SFopp. destruct sx.
  - split; [|reflexivity].
    apply SFleb_finite_neg_intro.
    change (Z.pos 4503599627370496) with (2 ^ 52)%Z. lia.
  - split; [reflexivity|].
    apply SFleb_finite_pos_intro.
    change (Z.pos 4503599627370496) with (2 ^ 52)%Z. lia.
Qed.

Lemma float_sample_max (sx : bool) :
  float_sample (if sx then (-32767)%Z else 32767%Z) =
  Ok (S754_finite sx 4503599627370496 (-52)).
Proof. destruct sx; vm_compute; reflexivity. Qed.

Lemma pow2_m52 : pow2 (-52) == 1 # 4503599627370496.
Proof. reflexivity. Qed.

Lemma pow2_m53 : pow2 (-53) == 1 # 9007199254740992.
Proof. reflexivity. Qed.

Lemma float_sample_unit_signed (sx : bool) (v : Z) :
  (1 <= v <= 32767)%Z ->
  exists d,
    float_sample (if sx then (- v)%Z else v) = Ok d
    /\ unit_sample d
    /\ Qabs (SF2Q d - signed sx (inject_Z v * (1 # 32767))) <= pow2 (-53).
Proof.
  intros Hv. destruct (Z.eq_dec v 32767) as [E|NE].
  - subst v. eexists. split; [apply float_sample_max|]. split.
    + apply unit_sample_intro; [reflexivity | vm_compute; discriminate |].
      rewrite pow2_m52. vm_compute. discriminate.
    + cbn [SF2Q]. fold (signed sx (inject_Z (Z.pos 4503599627370496) * pow2 (-52))).
      apply Qabs_signed_diff; rewrite pow2_m52, pow2_m53; vm_compute; discriminate.
  - destruct (float_sample_finite sx v Hv)
      as (m & e & e2 & Hf & Hb & Hup & Hlo & Hq & He2 & Hm).
    exists (S754_finite sx m e). split; [exact Hf|].
    assert (Hu2 : pow2 e2 <= pow2 (-52)) by (apply pow2_le; exact He2).
    pose proof pow2_m52 as H52. pose proof pow2_m53 as H53.
    assert (Hvq : inject_Z v <= inject_Z 32766) by (apply inject_Z_le; lia).
    change (inject_Z 32766) with 32766 in Hvq.
    split.
    + apply unit_sample_intro; [exact Hb | lia | lra].
    + cbn [SF2Q]. fold (signed sx (inject_Z (Z.pos m) * pow2 e)).
      apply Qabs_signed_diff; lra.
Qed.

(** One sample: scaling, truncating, converting back and dividing
    gives a sample in [-1.0, 1.0] again and loses at most 1/32767. *)
Theorem sample_roundtrip (s : float) :
  unit_sample s ->
  exists v d,
    int_sample s = Ok v
    /\ (-32767 <= v <= 32767)%Z
    /\ float_sample v = Ok d
    /\ unit_sample d
    /\ Qabs (SF2Q d - SF2Q s) <= 1 # 32767.
Proof.
  intros Hs. destruct s as [sg|sg| |sx m e].
  - exists 0%Z, (S754_zero false).
    split; [destruct sg; vm_compute; reflexivity|].
    split; [lia|]. split; [apply float_sample_zero|].
    split; [repeat split | discriminate].
  - destruct Hs as (_ & Hlo & Hhi). destruct sg; discriminate.
  - destruct Hs as (_ & Hlo & _). discriminate.
  - destruct (unit_sample_finite sx m e Hs) as [Hvalid Hle].
    destruct (int_sample_finite sx m e Hvalid Hle)
      as (R & e1 & HR & He1 & Hint & Hup & Hdown & HXP).
    set (v := (R / 2 ^ (- e1))%Z) in *.
    destruct (floor_rounded_Q R e1) as [Hfl Hfu]; [lia | exact He1 |].
    fold v in Hfl, Hfu.
    assert (Hv0 : (0 <= v)%Z).
    { subst v. apply Z.div_pos; [lia | apply Z.pow_pos_nonneg; lia]. }
    pose proof (pow2_pos e1) as Hu1.
    assert (Hu1' : pow2 e1 <= 1).
    { change 1 with (pow2 0). apply pow2_le. exact He1. }
    set (sq := inject_Z (Z.pos m) * pow2 e) in *.
    set (y := inject_Z R * pow2 e1) in *.
    set (u1 := pow2 e1) in *.
    assert (Hv32 : (v <= 32767)%Z).
    { assert (H : inject_Z v < inject_Z 32768).
      { change (inject_Z 32768) with 32768. lra. }
      rewrite <- Zlt_Qlt in H. lia. }
    exists (if sx then (- v)%Z else v).
    destruct (Z.eq_dec v 0) as [Ev|Ev].
    + exists (S754_zero false).
      split; [exact Hint|]. split; [destruct sx; lia|].
      split; [rewrite Ev; destruct sx; apply float_sample_zero|].
      split; [repeat split|].
      rewrite Ev in Hfl, Hfu. change (inject_Z 0) with 0 in Hfl, Hfu.
      cbn [SF2Q]. fold sq. apply Qabs_Qle_condition.
      destruct sx; split; lra.
    + destruct (float_sample_spec sx v) as (R2 & e2 & HR2 & Hfs & Hup2 & Hdown2 & Hq);
        [lia|].
      exists (rounded sx R2 e2).
      split; [exact Hint|]. split; [destruct sx; lia|].
      split; [exact Hfs|].
      split.
      { destruct (float_sample_unit_signed sx v) as (d' & Hfd' & Hud' & _);
          [lia|].
        assert (Ed : d' = rounded sx R2 e2) by congruence.
        rewrite <- Ed. exact Hud'. }
      rewrite SF2Q_rounded by exact HR2.
      change (SF2Q (S754_finite sx m e)) with (signed sx sq).
      pose proof (pow2_pos e2) as Hu2.
      assert (Hvq : inject_Z v <= 32767).
      { change 32767 with (inject_Z 32767). apply inject_Z_le. exact Hv32. }
      assert (Hu2' : pow2 e2 <= pow2 (-52)).
      { apply pow2_le.
        assert (H : pow2 (e2 + 52) <= pow2 0).
        { change (pow2 0) with 1. lra. }
        apply pow2_le_inv in H. lia. }
      change (pow2 (-52)) with (1 # 4503599627370496) in Hu2'.
      set (dq := inject_Z R2 * pow2 e2) in *.
      set (u2 := pow2 e2) in *.
      destruct (Qlt_le_dec (inject_Z v) (32767 * sq)) as [Htight|Hloose].
      * assert (Hgap : (e2 + 15 <= e1)%Z).
        { apply (exponent_gap v e1 e2 (32767 * sq)); try assumption; try lia.
          lra. }
        assert (Hu : 32768 * u2 <= u1).
        { subst u1 u2.
          assert (H : pow2 (e2 + 15) <= pow2 e1) by (apply pow2_le; exact Hgap).
          replace (e2 + 15)%Z with (15 + e2)%Z in H by lia.
          rewrite pow2_add in H. change (pow2 15) with 32768 in H. exact H. }
        apply Qabs_signed_diff; lra.
      * apply Qabs_signed_diff; lra.
Qed.

Local Open Scope Z_scope.

(** ** The round trip of a list of samples *)

Lemma mapM_sample_roundtrip (samples : list float) :
  Forall unit_sample samples ->
  exists ints out,
    mapM int_sample samples = Ok ints
    /\ Forall (fun v => -32767 <= v <= 32767) ints
    /\ mapM float_sample ints = Ok out
    /\ Forall2 (fun s d =>
                  unit_sample d
                  /\ (Qabs (SF2Q d - SF2Q s) <= 1 # 32767)%Q)
         samples out.
Proof.
  induction 1 as [|s samples Hs _ (ints & out & Hi & Hr & Ho & Hd)].
  - exists [], []. repeat split; constructor.
  - destruct (sample_roundtrip s Hs) as (v & d & Hv & Hvr & Hfd & Hud & Herr).
    exists (v :: ints), (d :: out). cbn [mapM].
    rewrite Hv, Hi, Hfd, Ho. cbn [bind].
    split; [reflexivity|]. split; [constructor; assumption|].
    split; [reflexivity|].
    constructor; [split; assumption | exact Hd].
Qed.

(** C2: for every sequence of floats in [-1.0, 1.0], encoding succeeds,
    the bytes unpack to the 16-bit integers that were packed, and
    [convert_to_samples] maps these to a sequence of the same length
    whose elements are again well-formed floats in [-1.0, 1.0] (so
    finite) and differ from the original ones by at most 1/32767. *)
Theorem convert_roundtrip (samples : list float) :
  Forall unit_sample samples ->
  exists data ints out,
    convert_to_bytes samples = Ok data
    /\ unpack (shorts_format (len samples)) data = Ok (map PyInt ints)
    /\ convert_to_samples ints = Ok out
    /\ List.length out = List.length samples
    /\ Forall2 (fun s d =>
                  unit_sample d
                  /\ (Qabs (SF2Q d - SF2Q s) <= 1 # 32767)%Q)
         samples out.
Proof.
  intros Hs.
  destruct (mapM_sample_roundtrip samples Hs) as (ints & out & Hi & Hr & Ho & Hd).
  exists (List.concat (map (le_bytes 2) ints)), ints, out.
  assert (Hlen : List.length ints = List.length samples)
    by (apply (mapM_length _ _ _ Hi)).
  assert (Hfits : forallb (fun z => (-32768 <=? z) && (z <=? 32767)) ints = true).
  { apply forallb_forall. intros z Hz.
    rewrite Forall_forall in Hr. specialize (Hr z Hz).
    apply andb_true_iff. split; apply Z.leb_le; lia. }
  split; [|split; [|split; [exact Ho | split; [|exact Hd]]]].
  - rewrite convert_to_bytes_eq, Hi. cbn [bind].
    rewrite Hfits. reflexivity.
  - rewrite unpack_shorts.
    assert (Hdata : len (List.concat (map (le_bytes 2) ints)) = 2 * len samples).
    { unfold len. rewrite <- Hlen. clear.
      induction ints as [|z ints IH]; [reflexivity|].
      cbn [map List.concat List.length].
      rewrite length_app, length_le_bytes. lia. }
    rewrite Hdata, Z.eqb_refl.
    replace (0 <=? len samples) with true
      by (symmetry; apply Z.leb_le; unfold len; lia).
    cbn [andb]. unfold len. rewrite Nat2Z.id, <- Hlen.
    rewrite unpack_ints_shorts; [reflexivity|].
    apply Forall_impl with (2 := Hr). intros z Hz. lia.
  - rewrite <- Hlen. apply (mapM_length _ _ _ Ho).
Qed.

Lemma convert_roundtrip_witness :
  exists data ints out,
    convert_to_bytes [float_half; SFopp float_one] = Ok data
    /\ unpack (shorts_format (len [float_half; SFopp float_one])) data
       = Ok (map PyInt ints)
    /\ convert_to_samples ints = Ok out
    /\ List.length out = List.length [float_half; SFopp float_one]
    /\ Forall2 (fun s d =>
                  unit_sample d
                  /\ (Qabs (SF2Q d - SF2Q s) <= 1 # 32767)%Q)
         [float_half; SFopp float_one] out.
Proof.
  apply (convert_roundtrip [float_half; SFopp float_one]).
  repeat constructor.
Defined.

(** * Further properties *)

(** ** Sample conversion *)

(** *** Symmetry *)

Lemma binary_round_aux_negb (sx : bool) (mx ex : Z) (lx : location) :
  binary_round_aux prec emax (negb sx) mx ex lx =
  SFopp (binary_round_aux prec emax sx mx ex lx).
Proof.
  unfold binary_round_aux.
  destruct (shr_fexp prec emax mx ex lx) as [mrs' e'].
  destruct (shr_fexp prec emax _ e' loc_Exact) as [mrs'' e''].
  destruct (shr_m mrs''); [reflexivity | | reflexivity].
  destruct (e'' <=? emax - prec); reflexivity.
Qed.

Lemma int_of_float_opp (f : float) :
  int_of_float (SFopp f) = (v <- int_of_float f ;; Ok (- v)).
Proof.
  destruct f as [s|s| |s m e]; cbn [SFopp int_of_float bind]; try reflexivity.
  destruct s; cbn [negb]; f_equal; lia.
Qed.

(** X1: Negating a sample negates its integer: the conversion truncates
    toward zero, and fails on the same samples. *)
Theorem int_sample_opp (s : float) :
  int_sample (SFopp s) = (v <- int_sample s ;; Ok (- v)).
Proof.
  unfold int_sample, float_mul_int. rewrite float_of_max_sample. cbn [bind].
  assert (Hmul : SFmul prec emax (SFopp s) (S754_finite false max_sample_mantissa (-38))
                 = SFopp (SFmul prec emax s (S754_finite false max_sample_mantissa (-38)))).
  { destruct s as [sg|sg| |sx m e]; cbn [SFopp SFmul]; rewrite ?xorb_false_r;
      try reflexivity.
    apply binary_round_aux_negb. }
  rewrite Hmul. apply int_of_float_opp.
Qed.

(** *** Decoded samples *)

Local Open Scope Q_scope.

(** X2: Decoded samples other than the one of -32768 are samples in
    [-1.0, 1.0], within 2^-53 of the exact quotient. *)
Theorem float_sample_unit (v : Z) :
  (-32767 <= v <= 32767)%Z ->
  exists d,
    float_sample v = Ok d
    /\ unit_sample d
    /\ Qabs (SF2Q d - inject_Z v * (1 # 32767)) <= pow2 (-53).
Proof.
  intros Hv.
  destruct (Z.lt_trichotomy v 0) as [Hneg | [Hz | Hpos]].
  - destruct (float_sample_unit_signed true (- v)) as (d & Hf & Hu & Hq); [lia|].
    rewrite Z.opp_involutive in Hf. exists d. split; [exact Hf|].
    split; [exact Hu|].
    assert (E : signed true (inject_Z (- v) * (1 # 32767))
                == inject_Z v * (1 # 32767)).
    { unfold signed. rewrite inject_Z_opp. ring. }
    rewrite E in Hq. exact Hq.
  - subst v. exists (S754_zero false). split; [apply float_sample_zero|].
    split; [repeat split | vm_compute; discriminate].
  - destruct (float_sample_unit_signed false v) as (d & Hf & Hu & Hq); [lia|].
    exists d. split; [exact Hf|]. split; [exact Hu | exact Hq].
Qed.

Lemma float_sample_unit_witness :
  (-32767 <= 12345 <= 32767)%Z
  /\ exists d,
       float_sample 12345 = Ok d
       /\ unit_sample d
       /\ Qabs (SF2Q d - inject_Z 12345 * (1 # 32767)) <= pow2 (-53).
Proof. split; [lia | apply (float_sample_unit 12345); lia]. Defined.

(** *** Decoding then encoding *)

Lemma exponent_gap_below (v j e1 e2 : Z) (X : Q) :
  (1 <= v < 32767)%Z -> (1 <= j)%Z ->
  (2 ^ (j - 1) < v < 2 ^ j)%Z ->
  inject_Z (2 ^ (j - 1)) <= X -> X < pow2 (e1 + 53) ->
  pow2 (e2 + 52) <= inject_Z v * (1 # 32767) ->
  (e2 + 15 <= e1)%Z.
Proof.
  intros Hv Hj Hvj HX HXP Hq.
  destruct (Z.le_gt_cases (e2 + 15) e1) as [|Hgt]; [assumption|exfalso].
  assert (Hle : pow2 (e1 + 38) <= pow2 (e2 + 52)) by (apply pow2_le; lia).
  assert (Hj' : (j <= e1 + 53)%Z).
  { assert (H : (j - 1 < e1 + 53)%Z); [|lia].
    apply pow2_lt_inv. rewrite <- pow2_inject by lia. lra. }
  assert (HP : pow2 j <= pow2 (e1 + 53)) by (apply pow2_le; exact Hj').
  assert (Hs : pow2 (e1 + 53) == 32768 * pow2 (e1 + 38)).
  { replace (e1 + 53)%Z with (15 + (e1 + 38))%Z by lia.
    rewrite pow2_add. reflexivity. }
  rewrite <- pow2_inject in HP by lia.
  assert (Hz : inject_Z (32767 * 2 ^ j) <= inject_Z (32768 * v)).
  { rewrite !inject_Z_mult. change (inject_Z 32767) with 32767.
    change (inject_Z 32768) with 32768. lra. }
  rewrite <- Zle_Qle in Hz. lia.
Qed.

Lemma int_float_sample_general (sx : bool) (v j : Z) :
  (1 <= v < 32767)%Z -> (1 <= j)%Z -> (2 ^ (j - 1) < v < 2 ^ j)%Z ->
  exists d,
    float_sample (if sx then (- v)%Z else v) = Ok d
    /\ int_sample d = Ok (if sx then (- v)%Z else v).
Proof.
  intros Hv Hj Hvj.
  destruct (float_sample_finite sx v)
    as (m & e & e2 & Hf & Hb & Hup & Hlo & Hq & He2 & Hm); [lia|].
  exists (S754_finite sx m e). split; [exact Hf|].
  assert (Hu2 : pow2 e2 <= pow2 (-52)) by (apply pow2_le; exact He2).
  pose proof pow2_m52 as H52.
  pose proof (pow2_pos e2) as Hu2pos.
  assert (Hvq : inject_Z v <= inject_Z 32766) by (apply inject_Z_le; lia).
  change (inject_Z 32766) with 32766 in Hvq.
  assert (Hv1 : inject_Z (2 ^ (j - 1) + 1) <= inject_Z v)
    by (apply inject_Z_le; lia).
  rewrite inject_Z_plus in Hv1. change (inject_Z 1) with 1 in Hv1.
  set (dq := inject_Z (Z.pos m) * pow2 e) in *.
  destruct (int_sample_finite sx m e Hb)
    as (R & e1 & HR & He1 & Hi & Hup1 & Hlo1 & HXP); [fold dq; lra|].
  fold dq in Hup1, Hlo1, HXP.
  rewrite Hi. cbv zeta.
  destruct (floor_rounded_Q R e1) as [Hfl Hfu]; [lia | lia |].
  cbv zeta in Hfl, Hfu.
  set (w := (R / 2 ^ (- e1))%Z) in *.
  assert (Hgap : (e2 + 15 <= e1)%Z).
  { apply (exponent_gap_below v j e1 e2 (32767 * dq)); try assumption. lra. }
  assert (Hu1 : 32768 * pow2 e2 <= pow2 e1).
  { assert (Hs : pow2 (e2 + 15) == 32768 * pow2 e2).
    { rewrite Z.add_comm, pow2_add. reflexivity. }
    rewrite <- Hs. apply pow2_le. exact Hgap. }
  assert (Hu1' : pow2 e1 <= 1).
  { change 1 with (pow2 0). apply pow2_le. exact He1. }
  assert (Hw : w = v).
  { assert (H1 : inject_Z v < inject_Z (w + 1)).
    { rewrite inject_Z_plus. change (inject_Z 1) with 1. lra. }
    assert (H2 : inject_Z w < inject_Z (v + 1)).
    { rewrite inject_Z_plus. change (inject_Z 1) with 1. lra. }
    rewrite <- Zlt_Qlt in H1, H2. lia. }
  rewrite Hw. reflexivity.
Qed.

Local Open Scope Z_scope.

Lemma int_float_sample_pow2 (sx : bool) (k : Z) :
  0 <= k <= 15 ->
  exists d,
    float_sample (if sx then - 2 ^ k else 2 ^ k) = Ok d
    /\ int_sample d = Ok (if sx then - 2 ^ k else 2 ^ k).
Proof.
  intros Hk.
  assert (H : k = 0 \/ k = 1 \/ k = 2 \/ k = 3 \/ k = 4 \/ k = 5 \/ k = 6
              \/ k = 7 \/ k = 8 \/ k = 9 \/ k = 10 \/ k = 11 \/ k = 12
              \/ k = 13 \/ k = 14 \/ k = 15) by lia.
  repeat (destruct H as [-> | H]);
    try subst k; destruct sx; eexists; (split; vm_compute; reflexivity).
Qed.

Lemma int_float_sample_max (sx : bool) :
  exists d,
    float_sample (if sx then -32767 else 32767) = Ok d
    /\ int_sample d = Ok (if sx then -32767 else 32767).
Proof. destruct sx; eexists; (split; vm_compute; reflexivity). Qed.

Lemma int_float_sample_signed (sx : bool) (v : Z) :
  1 <= v <= 32768 ->
  exists d,
    float_sample (if sx then - v else v) = Ok d
    /\ int_sample d = Ok (if sx then - v else v).
Proof.
  intros Hv.
  destruct (Z.eq_dec v 32768) as [E8|NE8];
    [subst v; apply (int_float_sample_pow2 sx 15); lia|].
  destruct (Z.eq_dec v 32767) as [E7|NE7];
    [subst v; apply int_float_sample_max|].
  destruct (Z.log2_spec v) as [Hlo Hhi]; [lia|].
  pose proof (Z.log2_nonneg v) as Hk.
  set (k := Z.log2 v) in *.
  change (Z.succ k) with (k + 1) in Hhi.
  assert (Hk15 : k <= 15).
  { destruct (Z.le_gt_cases k 15) as [|G]; [assumption|exfalso].
    assert (2 ^ 16 <= 2 ^ k) by (apply Z.pow_le_mono_r; lia). lia. }
  destruct (Z.eq_dec v (2 ^ k)) as [E|NE].
  - rewrite E. apply int_float_sample_pow2. lia.
  - apply (int_float_sample_general sx v (k + 1)); [lia | lia |].
    replace (k + 1 - 1) with k by lia. lia.
Qed.

(** Decoding a 16-bit integer and encoding the sample gives the integer
    back. *)
Lemma int_float_sample (v : Z) :
  -32768 <= v <= 32767 ->
  exists d, float_sample v = Ok d /\ int_sample d = Ok v.
Proof.
  intros Hv.
  destruct (Z.lt_trichotomy v 0) as [Hneg | [Hz | Hpos]].
  - destruct (int_float_sample_signed true (- v)) as (d & Hf & Hi); [lia|].
    rewrite Z.opp_involutive in Hf, Hi. exists d. split; assumption.
  - subst v. eexists. split; vm_compute; reflexivity.
  - apply (int_float_sample_signed false v). lia.
Qed.

Lemma mapM_app_raise {A B : Type} (f : A -> result B) (pre post : list A)
    (r : list B) (x : A) (e : exn) :
  mapM f pre = Ok r -> f x = Raise e ->
  mapM f (pre ++ x :: post) = Raise e.
Proof.
  revert r. induction pre as [|a pre IH]; intros r Hpre Hx.
  - cbn [Datatypes.app mapM]. rewrite Hx. reflexivity.
  - cbn [Datatypes.app mapM] in Hpre |- *.
    destruct (f a) as [b|e']; [|discriminate]. cbn [bind] in Hpre |- *.
    destruct (mapM f pre) as [bs|e'] eqn:E; [|discriminate].
    rewrite (IH bs eq_refl Hx). reflexivity.
Qed.

(** X3: A NaN or an infinite sample makes [convert_to_bytes] fail in the
    conversion to integers, before anything is packed: the samples
    before it are converted, whatever their range. *)
Theorem convert_to_bytes_not_finite (pre post : list float) (ints : list Z) :
  mapM int_sample pre = Ok ints ->
  convert_to_bytes (pre ++ S754_nan :: post) = Raise ValueError
  /\ forall sg : bool,
       convert_to_bytes (pre ++ S754_infinity sg :: post) = Raise OverflowError.
Proof.
  intros Hpre. unfold convert_to_bytes. split; [|intros sg].
  - rewrite (mapM_app_raise _ _ _ _ _ ValueError Hpre); [reflexivity|].
    unfold int_sample, float_mul_int. rewrite float_of_max_sample.
    reflexivity.
  - rewrite (mapM_app_raise _ _ _ _ _ OverflowError Hpre); [reflexivity|].
    unfold int_sample, float_mul_int. rewrite float_of_max_sample.
    reflexivity.
Qed.

Lemma convert_to_bytes_not_finite_witness :
  mapM int_sample [float_two] = Ok [65534]
  /\ convert_to_bytes ([float_two] ++ S754_nan :: [float_half])
     = Raise ValueError
  /\ forall sg : bool,
       convert_to_bytes ([float_two] ++ S754_infinity sg :: [float_half])
       = Raise OverflowError.
Proof.
  assert (H : mapM int_sample [float_two] = Ok [65534])
    by (vm_compute; reflexivity).
  split; [exact H|].
  apply (convert_to_bytes_not_finite [float_two] [float_half] [65534] H).
Defined.

Local Open Scope Q_scope.

(** X4: The integer of a sample in [-1.0, 1.0] is less than one unit away
    from 32767 times the sample. *)
Theorem int_sample_quantization (s : float) :
  unit_sample s ->
  exists v,
    int_sample s = Ok v
    /\ (-32767 <= v <= 32767)%Z
    /\ Qabs (inject_Z v - 32767 * SF2Q s) < 1.
Proof.
  intros Hs. destruct s as [sg|sg| |sx m e].
  - exists 0%Z. split; [destruct sg; vm_compute; reflexivity|].
    split; [lia | reflexivity].
  - destruct Hs as (_ & Hlo & Hhi). destruct sg; discriminate.
  - destruct Hs as (_ & Hlo & _). discriminate.
  - destruct (unit_sample_finite sx m e Hs) as [Hvalid Hle].
    destruct (int_sample_finite sx m e Hvalid Hle)
      as (R & e1 & HR & He1 & Hint & Hup & Hdown & HXP).
    set (v := (R / 2 ^ (- e1))%Z) in *.
    destruct (floor_rounded_Q R e1) as [Hfl Hfu]; [lia | exact He1 |].
    fold v in Hfl, Hfu.
    assert (Hv0 : (0 <= v)%Z).
    { subst v. apply Z.div_pos; [lia | apply Z.pow_pos_nonneg; lia]. }
    pose proof (pow2_pos e1) as Hu1.
    assert (Hu1' : pow2 e1 <= 1).
    { change 1 with (pow2 0). apply pow2_le. exact He1. }
    set (sq := inject_Z (Z.pos m) * pow2 e) in *.
    set (y := inject_Z R * pow2 e1) in *.
    set (u1 := pow2 e1) in *.
    assert (Hv32 : (v <= 32767)%Z).
    { assert (H : inject_Z v < inject_Z 32768).
      { change (inject_Z 32768) with 32768. lra. }
      rewrite <- Zlt_Qlt in H. lia. }
    exists (if sx then (- v)%Z else v).
    split; [exact Hint|]. split; [destruct sx; lia|].
    change (SF2Q (S754_finite sx m e)) with (signed sx sq).
    apply Qabs_Qlt_condition. unfold signed.
    destruct sx; [rewrite inject_Z_opp|]; split; lra.
Qed.

Lemma int_sample_quantization_witness :
  unit_sample float_half
  /\ exists v,
       int_sample float_half = Ok v
       /\ (-32767 <= v <= 32767)%Z
       /\ Qabs (inject_Z v - 32767 * SF2Q float_half) < 1.
Proof.
  assert (H : unit_sample float_half) by (repeat split).
  split; [exact H | apply (int_sample_quantization float_half H)].
Defined.

Local Open Scope Z_scope.

(** ** Reading and writing files *)

Lemma unpack_any_header (hb : list byte) :
  List.length hb = 44%nat ->
  (values <- unpack WAVE_FILE_HEADERS_STRUCT hb ;; headers_of_values values)
  = Ok (header_of_bytes hb).
Proof.
  intros Hlen. unfold unpack. rewrite parse_headers_format.
  cbn [bind]. rewrite Hlen.
  do 44 (destruct hb as [|? hb]; [discriminate|]).
  destruct hb; [|discriminate].
  reflexivity.
Qed.

Lemma bytes_at_firstn (off n k : nat) (b : list byte) :
  (off + n <= k)%nat -> bytes_at off n (firstn k b) = bytes_at off n b.
Proof.
  intros H. unfold bytes_at.
  rewrite skipn_firstn_comm, firstn_firstn.
  f_equal. lia.
Qed.

Lemma header_of_bytes_firstn (b : list byte) :
  header_of_bytes (firstn 44 b) = header_of_bytes b.
Proof.
  unfold header_of_bytes. rewrite !bytes_at_firstn by lia. reflexivity.
Qed.

Lemma bytes_at_app (off n : nat) (b extra : list byte) :
  (off + n <= List.length b)%nat ->
  bytes_at off n (b ++ extra) = bytes_at off n b.
Proof.
  intros H. unfold bytes_at.
  rewrite skipn_app, firstn_app, length_skipn.
  replace (n - (List.length b - off))%nat with 0%nat by lia.
  rewrite firstn_O, app_nil_r. reflexivity.
Qed.

Lemma bytes_at_skipn (off n k : nat) (b : list byte) :
  bytes_at off n (skipn k b) = bytes_at (k + off) n b.
Proof.
  unfold bytes_at. rewrite skipn_skipn. f_equal. f_equal. lia.
Qed.

Lemma shorts_at_skipn (n : nat) (data : list byte) :
  map (fun k => sint16 (bytes_at (2 * k) 2 data)) (seq 1 n)
  = shorts_at n (skipn 2 data).
Proof.
  unfold shorts_at. rewrite <- seq_shift, map_map.
  apply map_ext. intros k. rewrite bytes_at_skipn.
  do 2 f_equal. lia.
Qed.

Lemma unpack_ints_shorts_at (n : nat) (data : list byte) :
  unpack_ints Little Code_h n data = map PyInt (shorts_at n data).
Proof.
  revert data. induction n as [|n IH]; intros data; [reflexivity|].
  cbn [unpack_ints]. rewrite IH.
  unfold shorts_at at 2. cbn [seq map]. rewrite shorts_at_skipn.
  reflexivity.
Qed.

Lemma ints_of_values_map (l : list Z) : ints_of_values (map PyInt l) = Ok l.
Proof.
  unfold ints_of_values. induction l as [|z l IH]; [reflexivity|].
  cbn [map mapM bind]. rewrite IH. reflexivity.
Qed.

Lemma length_shorts_at (n : nat) (data : list byte) :
  List.length (shorts_at n data) = n.
Proof. unfold shorts_at. rewrite length_map, length_seq. reflexivity. Qed.

Lemma Z_of_byte_bounds (b : byte) : 0 <= Z_of_byte b < 256.
Proof.
  unfold Z_of_byte. pose proof (Byte.to_N_bounded b) as H. lia.
Qed.

Lemma le_value_bounds (bs : list byte) :
  0 <= le_value bs < 256 ^ Z.of_nat (List.length bs).
Proof.
  induction bs as [|b bs IH]; [cbn; lia|].
  cbn [le_value List.length]. rewrite Nat2Z.inj_succ, Z.pow_succ_r by lia.
  pose proof (Z_of_byte_bounds b). lia.
Qed.

Lemma sint16_range (bs : list byte) :
  (List.length bs <= 2)%nat -> -32768 <= sint16 bs <= 32767.
Proof.
  intros H. unfold sint16. pose proof (le_value_bounds bs) as Hb.
  assert (256 ^ Z.of_nat (List.length bs) <= 256 ^ 2)
    by (apply Z.pow_le_mono_r; lia).
  cbv zeta. destruct (Z.ltb_spec (le_value bs) 32768); lia.
Qed.

Lemma shorts_at_range (n : nat) (data : list byte) :
  Forall (fun z => -32768 <= z <= 32767) (shorts_at n data).
Proof.
  unfold shorts_at. apply Forall_map, Forall_forall. intros k _.
  apply sint16_range. unfold bytes_at. rewrite length_firstn. lia.
Qed.

(** Decoding 16-bit integers never fails, and encoding the samples gives
    the integers back. *)
Lemma mapM_int_float_sample (ints : list Z) :
  Forall (fun z => -32768 <= z <= 32767) ints ->
  exists samples,
    mapM float_sample ints = Ok samples
    /\ mapM int_sample samples = Ok ints.
Proof.
  induction 1 as [|z ints Hz _ IH].
  - exists []. split; reflexivity.
  - destruct IH as (samples & H1 & H2).
    destruct (int_float_sample z Hz) as (d & Hd & Hi).
    exists (d :: samples). cbn [mapM bind].
    rewrite Hd, H1, Hi, H2. split; reflexivity.
Qed.

Lemma read_wave_file_eq (content : list byte) :
  read_wave_file content =
  if len content <? 44 then Raise StructError
  else
    let h := header_of_bytes content in
    let n := data_size h / 2 in
    if len content - 44 <? 2 * n then Raise StructError
    else
      samples <- convert_to_samples (shorts_at (Z.to_nat n) (skipn 44 content)) ;;
      Ok (h, samples).
Proof.
  unfold read_wave_file. rewrite calcsize_headers. cbn [bind].
  unfold file_read. change (Z.to_nat 44) with 44%nat.
  destruct (Z.ltb_spec (len content) 44) as [Hs|Hs].
  - unfold unpack at 1. rewrite parse_headers_format. cbn [bind].
    replace (Z.of_nat (List.length (firstn 44 content)) =? _) with false;
      [reflexivity|].
    symmetry. apply Z.eqb_neq. rewrite length_firstn.
    unfold len in Hs. change (size_items _ _ _) with 44. lia.
  - assert (Hlen : List.length (firstn 44 content) = 44%nat).
    { rewrite length_firstn. unfold len in Hs. lia. }
    pose proof (unpack_any_header _ Hlen) as Hh.
    rewrite header_of_bytes_firstn in Hh.
    destruct (unpack WAVE_FILE_HEADERS_STRUCT (firstn 44 content))
      as [values|e]; [|discriminate].
    cbn [bind] in Hh |- *. rewrite Hh. cbn [bind]. cbv zeta.
    set (h := header_of_bytes content).
    set (n := data_size h / 2).
    assert (Hn : 0 <= n).
    { apply Z.div_pos; [|lia]. unfold h, header_of_bytes. cbn [data_size].
      apply le_value_bounds. }
    rewrite unpack_shorts.
    assert (Hrest : len (skipn 44 content) = len content - 44).
    { unfold len in *. rewrite length_skipn. lia. }
    replace (0 <=? n) with true by (symmetry; apply Z.leb_le; exact Hn).
    cbn [andb].
    destruct (Z.ltb_spec (len content - 44) (2 * n)) as [Ht|Ht].
    + replace (len (firstn (Z.to_nat (n * 2)) (skipn 44 content)) =? 2 * n)
        with false; [reflexivity|].
      symmetry. apply Z.eqb_neq. unfold len in *.
      rewrite length_firstn. lia.
    + replace (len (firstn (Z.to_nat (n * 2)) (skipn 44 content)) =? 2 * n)
        with true.
      2:{ symmetry. apply Z.eqb_eq. unfold len in *.
          rewrite length_firstn. lia. }
      cbn [bind]. rewrite unpack_ints_shorts_at, ints_of_values_map.
      cbn [bind].
      replace (shorts_at (Z.to_nat n) (firstn (Z.to_nat (n * 2)) (skipn 44 content)))
        with (shorts_at (Z.to_nat n) (skipn 44 content)); [reflexivity|].
      unfold shorts_at. apply map_ext_in. intros k Hk.
      apply in_seq in Hk. rewrite bytes_at_firstn by lia. reflexivity.
Qed.

Lemma byte_of_Z_eq (z : Z) (b : byte) :
  z mod 256 = Z_of_byte b -> byte_of_Z z = b.
Proof.
  intros H. unfold byte_of_Z. rewrite H. unfold Z_of_byte.
  rewrite N2Z.id, Byte.of_to_N. reflexivity.
Qed.

Lemma le_bytes_sint16 (a b : byte) : le_bytes 2 (sint16 [a; b]) = [a; b].
Proof.
  unfold sint16. cbn [le_value le_bytes].
  pose proof (Z_of_byte_bounds a) as Ha. pose proof (Z_of_byte_bounds b) as Hb.
  set (u := Z_of_byte a + 256 * (Z_of_byte b + 256 * 0)).
  set (z := if u <? 32768 then u else u - 65536).
  assert (Hz : z = u \/ z = u - 65536) by (unfold z; destruct (u <? 32768); auto).
  f_equal; [|f_equal]; apply byte_of_Z_eq; unfold u in Hz;
    Z.div_mod_to_equations; lia.
Qed.

Lemma concat_shorts_at (n : nat) (data : list byte) :
  List.length data = (2 * n)%nat ->
  List.concat (map (le_bytes 2) (shorts_at n data)) = data.
Proof.
  revert data. induction n as [|n IH]; intros data Hlen.
  - destruct data; [reflexivity | discriminate].
  - destruct data as [|a [|b data]]; try (cbn in Hlen; lia).
    unfold shorts_at. cbn [seq map List.concat].
    rewrite shorts_at_skipn. cbn [skipn]. rewrite IH by (cbn in Hlen; lia).
    change (bytes_at (2 * 0) 2 (a :: b :: data)) with [a; b].
    rewrite le_bytes_sint16. reflexivity.
Qed.

Lemma forallb_in_range (ints : list Z) :
  Forall (fun z => -32768 <= z <= 32767) ints ->
  forallb (fun z => (-32768 <=? z) && (z <=? 32767)) ints = true.
Proof.
  intros H. apply forallb_forall. rewrite Forall_forall in H.
  intros z Hz. specialize (H z Hz). apply andb_true_iff.
  split; apply Z.leb_le; lia.
Qed.

Lemma write_wave_file_cases (samples : list float) :
  write_wave_file samples =
  if len samples <=? 2147483629
  then data <- convert_to_bytes samples ;;
       Ok (header_bytes (36 + 2 * len samples) (2 * len samples) ++ data)
  else Raise StructError.
Proof.
  unfold write_wave_file. rewrite create_headers_eq. cbn [bind].
  rewrite pack_headers_with_sizes.
  replace (44 - 8 + len samples * 2) with (36 + 2 * len samples) by lia.
  replace (len samples * 2) with (2 * len samples) by lia.
  assert (H0 : 0 <= len samples) by (unfold len; lia).
  unfold in_range.
  destruct (Z.leb_spec (len samples) 2147483629) as [H|H].
  - replace (_ && _) with true; [reflexivity|].
    symmetry. rewrite !andb_true_iff, !Z.leb_le. lia.
  - replace (_ && _) with false; [reflexivity|].
    symmetry. apply andb_false_iff. left. apply andb_false_iff. right.
    apply Z.leb_gt. lia.
Qed.

Lemma mapM_nth_error {A B : Type} (f : A -> result B) (l : list A)
    (r : list B) (k : nat) (d : B) :
  mapM f l = Ok r -> nth_error r k = Some d ->
  exists a, nth_error l k = Some a /\ f a = Ok d.
Proof.
  revert r k. induction l as [|a l IH]; intros r k H Hk.
  - injection H as <-. destruct k; discriminate.
  - cbn [mapM] in H. destruct (f a) as [b|e] eqn:Ha; [|discriminate].
    cbn [bind] in H. destruct (mapM f l) as [bs|e]; [|discriminate].
    injection H as <-. destruct k as [|k].
    + injection Hk as <-. exists a. split; [reflexivity | exact Ha].
    + apply (IH bs k eq_refl Hk).
Qed.

Lemma nth_error_shorts_at (n k : nat) (data : list byte) :
  (k < n)%nat ->
  nth_error (shorts_at n data) k = Some (sint16 (bytes_at (2 * k) 2 data)).
Proof.
  intros Hk. unfold shorts_at.
  rewrite nth_error_map, nth_error_seq.
  destruct (Nat.ltb_spec k n); [reflexivity | lia].
Qed.

Lemma header_of_header_bytes (fs ds : Z) (data : list byte) :
  in_range Code_I fs = true -> in_range Code_I ds = true ->
  header_of_bytes (header_bytes fs ds ++ data) = headers_with_sizes fs ds.
Proof.
  intros Hfs Hds.
  assert (E : header_of_bytes (header_bytes fs ds ++ data)
              = header_of_bytes (header_bytes fs ds)).
  { unfold header_of_bytes.
    rewrite !bytes_at_app by (rewrite length_header_bytes; lia).
    reflexivity. }
  rewrite E.
  pose proof (unpack_any_header _ (length_header_bytes fs ds)) as H.
  rewrite (unpack_header_bytes fs ds Hfs Hds) in H. cbn [bind] in H.
  rewrite headers_of_values_of_headers in H. congruence.
Qed.

Lemma length_concat_le_bytes (ints : list Z) :
  List.length (List.concat (map (le_bytes 2) ints))
  = (2 * List.length ints)%nat.
Proof.
  induction ints as [|z ints IH]; [reflexivity|].
  cbn [map List.concat]. rewrite length_app, IH, length_le_bytes.
  cbn [List.length]. lia.
Qed.

Lemma convert_to_bytes_inv (samples : list float) (data : list byte) :
  convert_to_bytes samples = Ok data ->
  exists ints,
    mapM int_sample samples = Ok ints
    /\ Forall (fun z => -32768 <= z <= 32767) ints
    /\ data = List.concat (map (le_bytes 2) ints).
Proof.
  rewrite convert_to_bytes_eq.
  destruct (mapM int_sample samples) as [ints|e]; [|discriminate].
  cbn [bind].
  destruct (forallb _ ints) eqn:E; [|discriminate].
  intros H. injection H as <-. exists ints.
  split; [reflexivity|]. split; [|reflexivity].
  apply Forall_forall. intros z Hz.
  rewrite forallb_forall in E. specialize (E z Hz).
  apply andb_true_iff in E. destruct E as [E1 E2].
  apply Z.leb_le in E1, E2. lia.
Qed.

Lemma shorts_at_concat (ints : list Z) :
  Forall (fun z => -32768 <= z <= 32767) ints ->
  shorts_at (List.length ints) (List.concat (map (le_bytes 2) ints)) = ints.
Proof.
  intros H. pose proof (unpack_ints_shorts ints H) as E.
  rewrite unpack_ints_shorts_at in E.
  revert E. generalize (shorts_at (List.length ints)
                          (List.concat (map (le_bytes 2) ints))).
  intros l. revert l. induction ints as [|z ints IH]; intros [|y l] E;
    try discriminate; [reflexivity|].
  cbn [map] in E. injection E as -> E. f_equal. apply IH; [|exact E].
  inversion H; assumption.
Qed.

(** ** Files *)

(** X5: A file shorter than the 44-byte header is rejected. *)
Theorem read_wave_file_short_header (content : list byte) :
  len content < 44 -> read_wave_file content = Raise StructError.
Proof.
  intros H. rewrite read_wave_file_eq.
  destruct (Z.ltb_spec (len content) 44); [reflexivity | lia].
Qed.

Lemma read_wave_file_short_header_witness :
  len [x52; x49; x46; x46] < 44
  /\ read_wave_file [x52; x49; x46; x46] = Raise StructError.
Proof.
  split; [reflexivity | apply read_wave_file_short_header; reflexivity].
Defined.

(** X6: Any 44 bytes are accepted as a header: the fields are returned as
    the bytes give them, and the samples are the decoded 16-bit integers
    that follow. *)
Theorem read_wave_file_complete (content : list byte) :
  44 <= len content ->
  2 * (data_size (header_of_bytes content) / 2) <= len content - 44 ->
  exists samples,
    read_wave_file content = Ok (header_of_bytes content, samples)
    /\ len samples = data_size (header_of_bytes content) / 2
    /\ forall (k : nat) (d : float),
         nth_error samples k = Some d ->
         float_sample (sint16 (bytes_at (44 + 2 * k) 2 content)) = Ok d.
Proof.
  intros H44 Hdata. rewrite read_wave_file_eq. cbv zeta.
  set (h := header_of_bytes content) in *.
  set (n := data_size h / 2) in *.
  destruct (Z.ltb_spec (len content) 44); [lia|].
  destruct (Z.ltb_spec (len content - 44) (2 * n)); [lia|].
  assert (Hn : 0 <= n).
  { apply Z.div_pos; [|lia]. unfold h, header_of_bytes. cbn [data_size].
    apply le_value_bounds. }
  destruct (mapM_int_float_sample
              (shorts_at (Z.to_nat n) (skipn 44 content))
              (shorts_at_range _ _)) as (samples & Hs & _).
  exists samples. unfold convert_to_samples. rewrite Hs. cbn [bind].
  split; [reflexivity|].
  pose proof (mapM_length _ _ _ Hs) as Hl. rewrite length_shorts_at in Hl.
  split; [unfold len; lia|].
  intros k d Hk.
  destruct (mapM_nth_error _ _ _ _ _ Hs Hk) as (a & Ha & Hd).
  assert (Hkn : (k < Z.to_nat n)%nat).
  { rewrite <- Hl. apply nth_error_Some. congruence. }
  rewrite nth_error_shorts_at in Ha by exact Hkn.
  assert (Ea : a = sint16 (bytes_at (2 * k) 2 (skipn 44 content)))
    by congruence.
  rewrite Ea, bytes_at_skipn in Hd. exact Hd.
Qed.

Lemma read_wave_file_complete_witness :
  44 <= len min_sample_file
  /\ 2 * (data_size (header_of_bytes min_sample_file) / 2)
     <= len min_sample_file - 44
  /\ exists samples,
       read_wave_file min_sample_file
       = Ok (header_of_bytes min_sample_file, samples)
       /\ len samples = data_size (header_of_bytes min_sample_file) / 2
       /\ forall (k : nat) (d : float),
            nth_error samples k = Some d ->
            float_sample (sint16 (bytes_at (44 + 2 * k) 2 min_sample_file))
            = Ok d.
Proof.
  split; [vm_compute; discriminate|].
  split; [vm_compute; discriminate|].
  apply (read_wave_file_complete min_sample_file); vm_compute; discriminate.
Defined.

(** X7: Bytes after the declared data are ignored. *)
Theorem read_wave_file_trailing (content extra : list byte) :
  44 <= len content ->
  2 * (data_size (header_of_bytes content) / 2) <= len content - 44 ->
  read_wave_file (content ++ extra) = read_wave_file content.
Proof.
  intros H44 Hdata. rewrite !read_wave_file_eq. cbv zeta.
  assert (Hh : header_of_bytes (content ++ extra) = header_of_bytes content).
  { unfold header_of_bytes. unfold len in H44.
    rewrite !bytes_at_app by lia. reflexivity. }
  rewrite Hh.
  set (h := header_of_bytes content) in *.
  set (n := data_size h / 2) in *.
  assert (Hlen : len (content ++ extra) = len content + len extra).
  { unfold len. rewrite length_app. lia. }
  assert (Hextra : 0 <= len extra) by (unfold len; lia).
  destruct (Z.ltb_spec (len content) 44); [lia|].
  destruct (Z.ltb_spec (len (content ++ extra)) 44); [lia|].
  destruct (Z.ltb_spec (len content - 44) (2 * n)); [lia|].
  destruct (Z.ltb_spec (len (content ++ extra) - 44) (2 * n)); [lia|].
  replace (shorts_at (Z.to_nat n) (skipn 44 (content ++ extra)))
    with (shorts_at (Z.to_nat n) (skipn 44 content)); [reflexivity|].
  unfold shorts_at. apply map_ext_in. intros k Hk. apply in_seq in Hk.
  rewrite !bytes_at_skipn. unfold len in *.
  rewrite bytes_at_app by lia. reflexivity.
Qed.

Lemma read_wave_file_trailing_witness :
  44 <= len min_sample_file
  /\ 2 * (data_size (header_of_bytes min_sample_file) / 2)
     <= len min_sample_file - 44
  /\ read_wave_file (min_sample_file ++ [x4c; x49; x53; x54])
     = read_wave_file min_sample_file.
Proof.
  split; [vm_compute; discriminate|].
  split; [vm_compute; discriminate|].
  apply (read_wave_file_trailing min_sample_file); vm_compute; discriminate.
Defined.

(** X8: Writing fails before any sample is encoded when there are more than
    2147483629 samples; otherwise it fails exactly as the encoding of the
    samples does, and else writes the 44 header bytes followed by the
    encoded samples. *)
Theorem write_wave_file_outcome (samples : list float) :
  write_wave_file samples =
  if len samples <=? 2147483629
  then match convert_to_bytes samples with
       | Ok data =>
           Ok (header_bytes (36 + 2 * len samples) (2 * len samples) ++ data)
       | Raise e => Raise e
       end
  else Raise StructError.
Proof.
  rewrite write_wave_file_cases.
  destruct (len samples <=? 2147483629); [|reflexivity].
  destruct (convert_to_bytes samples) as [data|e]; reflexivity.
Qed.

(** X9: A written file is as long as its header says. *)
Theorem write_wave_file_sizes (samples : list float) (content : list byte) :
  write_wave_file samples = Ok content ->
  len content = 44 + 2 * len samples
  /\ data_size (header_of_bytes content) = len content - 44
  /\ file_size (header_of_bytes content) = len content - 8.
Proof.
  rewrite write_wave_file_cases.
  destruct (Z.leb_spec (len samples) 2147483629) as [Hn|Hn]; [|discriminate].
  destruct (convert_to_bytes samples) as [data|e] eqn:Hc; [|discriminate].
  cbn [bind]. intros H.
  assert (Hcontent : content = header_bytes (36 + 2 * len samples)
                                 (2 * len samples) ++ data) by congruence.
  subst content. clear H.
  destruct (convert_to_bytes_inv _ _ Hc) as (ints & Hi & _ & ->).
  pose proof (mapM_length _ _ _ Hi) as Hl.
  assert (H0 : 0 <= len samples) by (unfold len; lia).
  assert (Hlen : len (header_bytes (36 + 2 * len samples) (2 * len samples)
                      ++ List.concat (map (le_bytes 2) ints))
                 = 44 + 2 * len samples).
  { unfold len. rewrite length_app, length_header_bytes,
      length_concat_le_bytes. lia. }
  rewrite header_of_header_bytes
    by (unfold in_range; rewrite andb_true_iff, !Z.leb_le; lia).
  rewrite Hlen. cbn [data_size file_size headers_with_sizes].
  repeat split; lia.
Qed.

Lemma write_wave_file_sizes_witness :
  exists content,
    write_wave_file [float_half; SFopp float_one] = Ok content
    /\ len content = 44 + 2 * len [float_half; SFopp float_one]
    /\ data_size (header_of_bytes content) = len content - 44
    /\ file_size (header_of_bytes content) = len content - 8.
Proof.
  eexists. split; [vm_compute; reflexivity|].
  apply (write_wave_file_sizes [float_half; SFopp float_one]).
  vm_compute. reflexivity.
Defined.

(** X10: Reading a file written from samples in [-1.0, 1.0] gives the
    header of [create_headers] and every sample back as a well-formed
    float in [-1.0, 1.0] (so finite) within 1/32767 of the original. *)
Theorem write_read_roundtrip (samples : list float) :
  Forall unit_sample samples ->
  len samples <= 2147483629 ->
  exists content h out,
    write_wave_file samples = Ok content
    /\ read_wave_file content = Ok (h, out)
    /\ create_headers (len samples) = Ok h
    /\ List.length out = List.length samples
    /\ Forall2 (fun s d =>
                  unit_sample d
                  /\ (Qabs (SF2Q d - SF2Q s) <= 1 # 32767)%Q)
         samples out.
Proof.
  intros Hu Hn.
  destruct (mapM_sample_roundtrip samples Hu) as (ints & out & Hi & Hr & Ho & Hq).
  assert (Hr' : Forall (fun z => -32768 <= z <= 32767) ints).
  { eapply Forall_impl; [|exact Hr]. cbv beta. intros z Hz. lia. }
  pose proof (mapM_length _ _ _ Hi) as Hl.
  pose proof (mapM_length _ _ _ Ho) as Hlo.
  assert (H0 : 0 <= len samples) by (unfold len; lia).
  set (data := List.concat (map (le_bytes 2) ints)).
  set (fs := 36 + 2 * len samples). set (ds := 2 * len samples).
  exists (header_bytes fs ds ++ data), (headers_with_sizes fs ds), out.
  assert (Hc : convert_to_bytes samples = Ok data).
  { rewrite convert_to_bytes_eq, Hi. cbn [bind].
    rewrite forallb_in_range by exact Hr'. reflexivity. }
  split.
  { rewrite write_wave_file_cases.
    destruct (Z.leb_spec (len samples) 2147483629); [|lia].
    rewrite Hc. reflexivity. }
  split.
  { rewrite read_wave_file_eq. cbv zeta.
    rewrite header_of_header_bytes
      by (unfold in_range, fs, ds; rewrite andb_true_iff, !Z.leb_le; lia).
    assert (Hlen : len (header_bytes fs ds ++ data) = 44 + 2 * len samples).
    { unfold len, data. rewrite length_app, length_header_bytes,
        length_concat_le_bytes. lia. }
    rewrite Hlen. cbn [data_size headers_with_sizes]. unfold ds.
    replace (2 * len samples / 2) with (len samples)
      by (rewrite Z.mul_comm, Z.div_mul; lia).
    destruct (Z.ltb_spec (44 + 2 * len samples) 44); [lia|].
    destruct (Z.ltb_spec (44 + 2 * len samples - 44) (2 * len samples)); [lia|].
    rewrite skipn_app, length_header_bytes.
    replace (skipn 44 (header_bytes fs (2 * len samples))) with (@nil byte)
      by (symmetry; apply skipn_all2; rewrite length_header_bytes; lia).
    cbn [Nat.sub skipn Datatypes.app].
    unfold len. rewrite Nat2Z.id, <- Hl. unfold data.
    rewrite shorts_at_concat by exact Hr'.
    unfold convert_to_samples. rewrite Ho. reflexivity. }
  split.
  { rewrite create_headers_eq. unfold fs, ds. do 2 f_equal; lia. }
  split; [lia | exact Hq].
Qed.

Lemma write_read_roundtrip_witness :
  Forall unit_sample [float_half; SFopp float_one]
  /\ len [float_half; SFopp float_one] <= 2147483629
  /\ exists content h out,
       write_wave_file [float_half; SFopp float_one] = Ok content
       /\ read_wave_file content = Ok (h, out)
       /\ create_headers (len [float_half; SFopp float_one]) = Ok h
       /\ List.length out = List.length [float_half; SFopp float_one]
       /\ Forall2 (fun s d =>
                     unit_sample d
                     /\ (Qabs (SF2Q d - SF2Q s) <= 1 # 32767)%Q)
            [float_half; SFopp float_one] out.
Proof.
  assert (H : Forall unit_sample [float_half; SFopp float_one])
    by (repeat constructor).
  split; [exact H|].
  split; [vm_compute; discriminate|].
  apply (write_read_roundtrip [float_half; SFopp float_one] H).
  vm_compute. discriminate.
Defined.

(** X11: Encoding the samples decoded from 16-bit integers gives the bytes of
    the integers back. *)
Theorem convert_to_samples_to_bytes (ints : list Z) :
  Forall (fun z => -32768 <= z <= 32767) ints ->
  exists samples,
    convert_to_samples ints = Ok samples
    /\ List.length samples = List.length ints
    /\ mapM int_sample samples = Ok ints
    /\ convert_to_bytes samples = pack (shorts_format (len ints)) (map PyInt ints)
    /\ convert_to_bytes samples = Ok (List.concat (map (le_bytes 2) ints)).
Proof.
  intros H. destruct (mapM_int_float_sample ints H) as (samples & Hs & Hi).
  exists samples. split; [exact Hs|].
  pose proof (mapM_length _ _ _ Hs) as Hl.
  split; [exact Hl|]. split; [exact Hi|].
  assert (Hc : convert_to_bytes samples
               = Ok (List.concat (map (le_bytes 2) ints))).
  { rewrite convert_to_bytes_eq, Hi. cbn [bind].
    rewrite forallb_in_range by exact H. reflexivity. }
  split; [|exact Hc].
  rewrite Hc, pack_shorts. unfold in_range.
  rewrite forallb_in_range by exact H. reflexivity.
Qed.

Lemma convert_to_samples_to_bytes_witness :
  Forall (fun z => -32768 <= z <= 32767) [-32768; 12345; 32767]
  /\ exists samples,
       convert_to_samples [-32768; 12345; 32767] = Ok samples
       /\ List.length samples = List.length [-32768; 12345; 32767]
       /\ mapM int_sample samples = Ok [-32768; 12345; 32767]
       /\ convert_to_bytes samples
          = pack (shorts_format (len [-32768; 12345; 32767]))
              (map PyInt [-32768; 12345; 32767])
       /\ convert_to_bytes samples
          = Ok (List.concat (map (le_bytes 2) [-32768; 12345; 32767])).
Proof.
  assert (H : Forall (fun z => -32768 <= z <= 32767) [-32768; 12345; 32767])
    by (repeat constructor; lia).
  split; [exact H|].
  apply (convert_to_samples_to_bytes [-32768; 12345; 32767] H).
Defined.

(** X12: Writing the samples read from a file reproduces the data bytes of
    the file after a regenerated header. *)
Theorem read_write_data (content : list byte) (h : WaveFileHeaders)
    (samples : list float) :
  read_wave_file content = Ok (h, samples) ->
  data_size h <= 4294967259 ->
  write_wave_file samples =
  Ok (header_bytes (36 + 2 * (data_size h / 2)) (2 * (data_size h / 2))
      ++ bytes_at 44 (Z.to_nat (2 * (data_size h / 2))) content).
Proof.
  rewrite read_wave_file_eq. cbv zeta.
  destruct (Z.ltb_spec (len content) 44) as [|H44]; [discriminate|].
  set (h' := header_of_bytes content).
  set (n := data_size h' / 2).
  destruct (Z.ltb_spec (len content - 44) (2 * n)) as [|Hdata]; [discriminate|].
  assert (Hn : 0 <= n).
  { apply Z.div_pos; [|lia]. unfold h', header_of_bytes. cbn [data_size].
    apply le_value_bounds. }
  set (raw := skipn 44 content).
  destruct (mapM_int_float_sample (shorts_at (Z.to_nat n) raw)
              (shorts_at_range _ _)) as (samples' & Hs & Hi).
  unfold convert_to_samples. rewrite Hs. cbn [bind].
  intros E Hds. injection E as <- <-. fold n.
  pose proof (mapM_length _ _ _ Hs) as Hl. rewrite length_shorts_at in Hl.
  assert (Hlen : len samples' = n) by (unfold len; lia).
  rewrite write_wave_file_cases, Hlen.
  assert (Hn' : n <= 2147483629).
  { assert (n < 2147483630); [|lia].
    unfold n. apply Z.div_lt_upper_bound; lia. }
  destruct (Z.leb_spec n 2147483629); [|lia].
  rewrite convert_to_bytes_eq, Hi. cbn [bind].
  rewrite forallb_in_range by apply shorts_at_range.
  cbn [bind]. do 2 f_equal.
  assert (Hb : bytes_at 44 (Z.to_nat (2 * n)) content
               = firstn (2 * Z.to_nat n) raw).
  { unfold bytes_at, raw. f_equal. lia. }
  rewrite Hb.
  assert (Hsh : shorts_at (Z.to_nat n) raw
                = shorts_at (Z.to_nat n) (firstn (2 * Z.to_nat n) raw)).
  { unfold shorts_at. apply map_ext_in. intros k Hk. apply in_seq in Hk.
    rewrite bytes_at_firstn by lia. reflexivity. }
  rewrite Hsh. apply concat_shorts_at.
  rewrite length_firstn. unfold raw. rewrite length_skipn.
  unfold len in *. lia.
Qed.

Lemma read_write_data_witness :
  exists h samples,
    read_wave_file min_sample_file = Ok (h, samples)
    /\ data_size h <= 4294967259
    /\ write_wave_file samples =
       Ok (header_bytes (36 + 2 * (data_size h / 2)) (2 * (data_size h / 2))
           ++ bytes_at 44 (Z.to_nat (2 * (data_size h / 2))) min_sample_file).
Proof.
  eexists. eexists.
  assert (H : read_wave_file min_sample_file
              = Ok (headers_with_sizes 38 2,
                    [SFdiv prec emax
                       (S754_finite true 4503599627370496 (-37))
                       (S754_finite false max_sample_mantissa (-38))])).
  { vm_compute. reflexivity. }
  split; [exact H|].
  split; [vm_compute; discriminate|].
  apply (read_write_data min_sample_file _ _ H).
  vm_compute. discriminate.
Defined.

(** ** Channels of any length *)

Section MoreChannelProofs.
Context {A : Type}.
Implicit Types (chs st ts rows : list (list A)) (hs row samples : list A).

Lemma heads_shortest (m : nat) chs :
  Forall (fun ch => (S m <= List.length ch)%nat) chs ->
  exists hs ts,
    heads chs = Some (hs, ts)
    /\ chs = cons_all hs ts
    /\ List.length hs = List.length chs
    /\ List.length ts = List.length chs
    /\ Forall (fun ch => (m <= List.length ch)%nat) ts
    /\ (Exists (fun ch => List.length ch = S m) chs ->
        Exists (fun ch => List.length ch = m) ts).
Proof.
  induction 1 as [|ch chs Hch _ (hs & ts & Hh & -> & Hlh & Hlt & Hts & Hex)].
  - exists [], []. repeat split; [constructor|].
    intros H. inversion H.
  - destruct ch as [|x t]; [cbn in Hch; lia|].
    exists (x :: hs), (t :: ts). cbn [heads]. rewrite Hh.
    repeat split; cbn [List.length cons_all]; try congruence.
    + constructor; [cbn in Hch; lia | exact Hts].
    + intros H. apply Exists_cons in H. destruct H as [H|H].
      * left. cbn in H. lia.
      * right. apply Hex. exact H.
Qed.

Lemma heads_empty chs :
  Exists (fun ch => List.length ch = 0%nat) chs -> heads chs = None.
Proof.
  induction 1 as [ch chs Hch | ch chs _ IH].
  - destruct ch; [reflexivity | discriminate].
  - destruct ch as [|x t]; [reflexivity|]. cbn [heads]. rewrite IH.
    reflexivity.
Qed.

Lemma zip_steps_shortest (m : nat) :
  forall (fuel : nat) chs,
    (m <= fuel)%nat ->
    Forall (fun ch => (m <= List.length ch)%nat) chs ->
    Exists (fun ch => List.length ch = m) chs ->
    List.length (zip_steps fuel chs) = m
    /\ all_length (List.length chs) (zip_steps fuel chs)
    /\ forall (i c : nat) (ch : list A),
         (i < m)%nat -> nth_error chs c = Some ch ->
         nth_error (List.concat (zip_steps fuel chs))
           (i * List.length chs + c) = nth_error ch i.
Proof.
  induction m as [|m IH]; intros fuel chs Hfuel Hall Hex.
  - assert (E : zip_steps fuel chs = []).
    { destruct fuel; [reflexivity|]. cbn [zip_steps].
      rewrite heads_empty by exact Hex. reflexivity. }
    rewrite E. split; [reflexivity|]. split; [constructor|]. intros; lia.
  - destruct fuel as [|fuel]; [lia|].
    destruct (heads_shortest m chs Hall)
      as (hs & ts & Hh & -> & Hlh & Hlt & Hts & Hex').
    cbn [zip_steps]. rewrite Hh.
    destruct (IH fuel ts) as (Hlen & Hrows & Hnth);
      [lia | exact Hts | apply Hex'; exact Hex |].
    split; [cbn; congruence|].
    split; [constructor; [exact Hlh | rewrite <- Hlt; exact Hrows]|].
    intros i c ch Hi Hc. cbn [List.concat].
    destruct (nth_error_cons_all _ _ _ _ Hc) as (h & t & -> & Hhc & Htc).
    assert (Hclt : (c < List.length hs)%nat)
      by (apply nth_error_Some; congruence).
    destruct i as [|i].
    + cbn [Nat.mul Nat.add nth_error].
      rewrite nth_error_app1 by exact Hclt. exact Hhc.
    + rewrite nth_error_app2 by lia.
      replace (S i * List.length (cons_all hs ts) + c - List.length hs)%nat
        with (i * List.length ts + c)%nat by lia.
      cbn [nth_error]. apply Hnth; [lia | exact Htc].
Qed.

(** X13: [merge_channels] stops at the end of the shortest channel: with [m]
    the smallest length, the result has [m] samples of every channel,
    interleaved. *)
Theorem merge_channels_shortest (m : nat) chs :
  Forall (fun ch => (m <= List.length ch)%nat) chs ->
  Exists (fun ch => List.length ch = m) chs ->
  List.length (merge_channels chs) = (m * List.length chs)%nat
  /\ forall (i c : nat) (ch : list A),
       (i < m)%nat -> nth_error chs c = Some ch ->
       nth_error (merge_channels chs) (i * List.length chs + c)
       = nth_error ch i.
Proof.
  intros Hall Hex. unfold merge_channels. rewrite fold_left_app_concat.
  cbn [Datatypes.app]. destruct chs as [|first chs]; [inversion Hex|].
  cbn [zip_star].
  destruct (zip_steps_shortest m (List.length first) (first :: chs))
    as (Hlen & Hrows & Hnth);
    [inversion Hall; assumption | exact Hall | exact Hex |].
  split; [|exact Hnth].
  rewrite (length_concat_rows _ _ Hrows), Hlen. reflexivity.
Qed.

End MoreChannelProofs.

Lemma merge_channels_shortest_witness :
  Forall (fun ch => (1 <= List.length ch)%nat) [[1; 2; 3]; [4]]
  /\ Exists (fun ch => List.length ch = 1%nat) [[1; 2; 3]; [4]]
  /\ List.length (merge_channels [[1; 2; 3]; [4]])
     = (1 * List.length [[1; 2; 3]; [4]])%nat
  /\ forall (i c : nat) (ch : list Z),
       (i < 1)%nat -> nth_error [[1; 2; 3]; [4]] c = Some ch ->
       nth_error (merge_channels [[1; 2; 3]; [4]])
         (i * List.length [[1; 2; 3]; [4]] + c)
       = nth_error ch i.
Proof.
  assert (H1 : Forall (fun ch => (1 <= List.length ch)%nat) [[1; 2; 3]; [4]])
    by (repeat constructor).
  assert (H2 : Exists (fun ch => List.length ch = 1%nat) [[1; 2; 3]; [4]])
    by (right; left; reflexivity).
  split; [exact H1|]. split; [exact H2|].
  apply (merge_channels_shortest 1 [[1; 2; 3]; [4]] H1 H2).
Defined.

Section SeparateProofs.
Context {A : Type}.
Implicit Types (chs st ts rows : list (list A)) (hs row samples : list A).

Lemma firstn_plus (n m : nat) samples :
  firstn (n + m) samples = firstn n samples ++ firstn m (skipn n samples).
Proof.
  rewrite firstn_skipn_comm.
  rewrite <- (firstn_skipn n (firstn (n + m) samples)) at 1.
  rewrite firstn_firstn. do 2 f_equal. lia.
Qed.

Lemma chunks_spec (C : nat) :
  forall (q : nat) samples,
    (q * C <= List.length samples)%nat ->
    List.length (chunks C q samples) = q
    /\ all_length C (chunks C q samples)
    /\ List.concat (chunks C q samples) = firstn (q * C) samples.
Proof.
  induction q as [|q IH]; intros samples Hq.
  - repeat split. constructor.
  - cbn [chunks]. destruct (IH (skipn C samples)) as (Hl & Ha & Hc).
    { rewrite length_skipn. lia. }
    split; [cbn; congruence|].
    split.
    + constructor; [|exact Ha]. rewrite length_firstn. lia.
    + cbn [List.concat]. rewrite Hc.
      change (S q * C)%nat with (C + q * C)%nat.
      rewrite firstn_plus. reflexivity.
Qed.

Lemma nth_error_chunks (C : nat) :
  forall (q : nat) samples (k : nat),
    (k < q)%nat ->
    nth_error (chunks C q samples) k = Some (firstn C (skipn (k * C) samples)).
Proof.
  induction q as [|q IH]; intros samples k Hk; [lia|].
  destruct k as [|k]; [reflexivity|].
  cbn [chunks nth_error]. rewrite IH by lia.
  rewrite skipn_skipn. do 3 f_equal. lia.
Qed.

Lemma length_fold_snoc_all rows :
  forall st,
    all_length (List.length st) rows ->
    List.length (fold_left snoc_all rows st) = List.length st.
Proof.
  induction rows as [|row rows IH]; intros st Hrows; [reflexivity|].
  apply Forall_cons_iff in Hrows. destruct Hrows as [Hrow Hrows].
  cbn [fold_left].
  assert (Hl : List.length (snoc_all st row) = List.length st)
    by (apply length_snoc_all; congruence).
  rewrite IH; [exact Hl | rewrite Hl; exact Hrows].
Qed.

Lemma app_all_repeat_nil_r st :
  app_all st (repeat [] (List.length st)) = st.
Proof.
  induction st as [|col st IH]; cbn; [|rewrite app_nil_r, IH]; reflexivity.
Qed.

Lemma fold_snoc_all_app_all (C : nat) rows :
  all_length C rows ->
  forall st,
    List.length st = C ->
    fold_left snoc_all rows st
    = app_all st (fold_left snoc_all rows (repeat [] C)).
Proof.
  induction 1 as [|row rows Hrow Hrows IH]; intros st Hst.
  - cbn [fold_left]. rewrite <- Hst, app_all_repeat_nil_r. reflexivity.
  - cbn [fold_left].
    rewrite (IH (snoc_all st row))
      by (rewrite length_snoc_all; congruence).
    rewrite (IH (snoc_all (repeat [] C) row))
      by (rewrite length_snoc_all; rewrite repeat_length; congruence).
    rewrite !app_all_snoc_all.
    f_equal. symmetry.
    set (T := fold_left snoc_all rows (repeat [] C)).
    assert (HT : List.length T = C).
    { unfold T. rewrite length_fold_snoc_all; rewrite repeat_length;
        [reflexivity | exact Hrows]. }
    assert (Hc : List.length (cons_all row T) = C)
      by (rewrite length_cons_all; congruence).
    rewrite <- Hc at 1. apply app_all_repeat_nil.
Qed.

(** The columns of a list of rows, built as [separate_channels] does. *)
Lemma fold_snoc_all_cons (C : nat) row rows :
  List.length row = C -> all_length C rows ->
  fold_left snoc_all (row :: rows) (repeat [] C)
  = cons_all row (fold_left snoc_all rows (repeat [] C)).
Proof.
  intros Hrow Hrows. cbn [fold_left].
  rewrite (fold_snoc_all_app_all C rows Hrows)
    by (rewrite length_snoc_all; rewrite repeat_length; congruence).
  rewrite app_all_snoc_all.
  set (T := fold_left snoc_all rows (repeat [] C)).
  assert (HT : List.length T = C).
  { unfold T. rewrite length_fold_snoc_all; rewrite repeat_length;
      [reflexivity | exact Hrows]. }
  assert (Hc : List.length (cons_all row T) = C)
    by (rewrite length_cons_all; congruence).
  rewrite <- Hc at 1. apply app_all_repeat_nil.
Qed.

Lemma heads_cons_all hs ts :
  List.length hs = List.length ts -> heads (cons_all hs ts) = Some (hs, ts).
Proof.
  revert ts. induction hs as [|x hs IH]; intros [|t ts] Hl; try discriminate;
    [reflexivity|].
  cbn [cons_all heads]. rewrite IH by (cbn in Hl; congruence).
  reflexivity.
Qed.

Lemma columns_spec (C : nat) rows :
  all_length C rows ->
  let chs := fold_left snoc_all rows (repeat [] C) in
  List.length chs = C
  /\ all_length (List.length rows) chs
  /\ (forall (c k : nat) (ch : list A),
        nth_error chs c = Some ch ->
        nth_error ch k =
        match nth_error rows k with
        | Some row => nth_error row c
        | None => None
        end)
  /\ zip_steps (List.length rows) chs = rows.
Proof.
  induction 1 as [|row rows Hrow Hrows IH]; cbv zeta.
  - cbn [fold_left List.length]. rewrite repeat_length.
    split; [reflexivity|].
    split; [apply Forall_forall; intros ch Hch;
            apply repeat_spec in Hch; subst; reflexivity|].
    split; [|reflexivity].
    intros c k ch Hc. apply nth_error_In, repeat_spec in Hc. subst ch.
    destruct k; reflexivity.
  - cbv zeta in IH. destruct IH as (HT & Hall & Hnth & Hzip).
    rewrite (fold_snoc_all_cons C row rows Hrow Hrows).
    set (T := fold_left snoc_all rows (repeat [] C)) in *.
    split; [rewrite length_cons_all; congruence|].
    split.
    { apply Forall_forall. intros ch Hch.
      apply In_nth_error in Hch. destruct Hch as [c Hc].
      destruct (nth_error_cons_all _ _ _ _ Hc) as (h & t & -> & _ & Htc).
      cbn [List.length]. f_equal.
      apply nth_error_In in Htc.
      unfold all_length in Hall. rewrite Forall_forall in Hall.
      apply Hall. exact Htc. }
    split.
    { intros c k ch Hc.
      destruct (nth_error_cons_all _ _ _ _ Hc) as (h & t & -> & Hhc & Htc).
      destruct k as [|k]; cbn [nth_error].
      - symmetry. exact Hhc.
      - apply Hnth. exact Htc. }
    change (List.length (row :: rows)) with (S (List.length rows)).
    cbn [zip_steps].
    rewrite heads_cons_all by congruence.
    rewrite Hzip. reflexivity.
Qed.

Lemma separate_channels_rows samples (C : nat) :
  (0 < C)%nat ->
  separate_channels samples (Z.of_nat C)
  = Ok (fold_left snoc_all (chunks C (List.length samples / C) samples)
          (repeat [] C)).
Proof.
  intros HC. set (q := (List.length samples / C)%nat).
  assert (Hq : (q * C <= List.length samples)%nat).
  { unfold q. rewrite Nat.mul_comm. apply Nat.Div0.mul_div_le. }
  destruct (chunks_spec C q samples Hq) as (Hl & Ha & Hc).
  unfold separate_channels, floordiv, len.
  replace (Z.of_nat C =? 0) with false by (symmetry; apply Z.eqb_neq; lia).
  cbn [bind].
  replace (Z.of_nat (List.length samples) / Z.of_nat C) with (Z.of_nat q)
    by (unfold q; apply Nat2Z.inj_div).
  unfold range at 1. rewrite !Nat2Z.id. rewrite <- Hl at 1.
  apply (separate_outer_loop samples C (chunks C q samples) 0
           (repeat [] C) (skipn (q * C) samples)).
  - apply repeat_length.
  - exact Ha.
  - cbn [Nat.mul skipn]. rewrite Hc. symmetry. apply firstn_skipn.
Qed.

(** X14: For a positive number of channels [separate_channels] never fails:
    it returns [C] channels of [len(samples) // C] samples each, channel
    [c] holding the samples at the indices [k * C + c]; the samples left
    over are dropped. *)
Theorem separate_channels_shape samples (C : nat) :
  (0 < C)%nat ->
  exists chs,
    separate_channels samples (Z.of_nat C) = Ok chs
    /\ List.length chs = C
    /\ all_length (List.length samples / C) chs
    /\ forall (c k : nat) (ch : list A),
         nth_error chs c = Some ch ->
         (k < List.length samples / C)%nat ->
         nth_error ch k = nth_error samples (k * C + c).
Proof.
  intros HC. rewrite (separate_channels_rows samples C HC).
  set (q := (List.length samples / C)%nat).
  assert (Hq : (q * C <= List.length samples)%nat).
  { unfold q. rewrite Nat.mul_comm. apply Nat.Div0.mul_div_le. }
  destruct (chunks_spec C q samples Hq) as (Hl & Ha & Hc).
  destruct (columns_spec C _ Ha) as (HlT & HaT & Hnth & _).
  eexists. split; [reflexivity|].
  split; [exact HlT|].
  split; [rewrite Hl in HaT; exact HaT|].
  intros c k ch Hch Hk. rewrite (Hnth c k ch Hch).
  rewrite nth_error_chunks by exact Hk.
  assert (Hclt : (c < C)%nat).
  { rewrite <- HlT. apply nth_error_Some. congruence. }
  rewrite nth_error_firstn.
  destruct (Nat.ltb_spec c C); [|lia].
  rewrite nth_error_skipn. reflexivity.
Qed.

(** X15: Merging the separated channels gives the samples back, without the
    incomplete last frame. *)
Theorem merge_separate_channels samples (C : nat) :
  (0 < C)%nat ->
  exists chs,
    separate_channels samples (Z.of_nat C) = Ok chs
    /\ merge_channels chs
       = firstn (List.length samples / C * C) samples.
Proof.
  intros HC. rewrite (separate_channels_rows samples C HC).
  set (q := (List.length samples / C)%nat).
  assert (Hq : (q * C <= List.length samples)%nat).
  { unfold q. rewrite Nat.mul_comm. apply Nat.Div0.mul_div_le. }
  destruct (chunks_spec C q samples Hq) as (Hl & Ha & Hc).
  destruct (columns_spec C _ Ha) as (HlT & HaT & _ & Hzip).
  eexists. split; [reflexivity|].
  rewrite (merge_channels_rows _ _ HaT).
  set (T := fold_left snoc_all (chunks C q samples) (repeat [] C)) in *.
  destruct T as [|t T'] eqn:ET; [cbn in HlT; lia|].
  rewrite Hzip. exact Hc.
Qed.

(** X16: Without channels the division fails, and a negative number of
    channels gives no channel at all. *)
Theorem separate_channels_nonpositive samples (C : Z) :
  C <= 0 ->
  separate_channels samples C =
  if C =? 0 then Raise ZeroDivisionError else Ok [].
Proof.
  intros HC. unfold separate_channels, floordiv.
  destruct (Z.eqb_spec C 0) as [E|NE]; [reflexivity|].
  cbn [bind].
  assert (Hrows : len samples / C <= 0).
  { assert (0 <= len samples) by (unfold len; lia).
    Z.div_mod_to_equations. nia. }
  unfold range at 1.
  replace (Z.to_nat (len samples / C)) with 0%nat by lia.
  replace (Z.to_nat C) with 0%nat by lia.
  reflexivity.
Qed.

End SeparateProofs.

Lemma separate_channels_shape_witness :
  (0 < 2)%nat
  /\ exists chs,
       separate_channels [1; 2; 3; 4; 5] (Z.of_nat 2) = Ok chs
       /\ List.length chs = 2%nat
       /\ all_length (List.length [1; 2; 3; 4; 5] / 2) chs
       /\ forall (c k : nat) (ch : list Z),
            nth_error chs c = Some ch ->
            (k < List.length [1; 2; 3; 4; 5] / 2)%nat ->
            nth_error ch k = nth_error [1; 2; 3; 4; 5] (k * 2 + c).
Proof.
  split; [lia | apply (separate_channels_shape [1; 2; 3; 4; 5] 2); lia].
Defined.

Lemma merge_separate_channels_witness :
  (0 < 2)%nat
  /\ exists chs,
       separate_channels [1; 2; 3; 4; 5] (Z.of_nat 2) = Ok chs
       /\ merge_channels chs
          = firstn (List.length [1; 2; 3; 4; 5] / 2 * 2) [1; 2; 3; 4; 5].
Proof.
  split; [lia | apply (merge_separate_channels [1; 2; 3; 4; 5] 2); lia].
Defined.

Lemma separate_channels_nonpositive_witness :
  -2 <= 0
  /\ separate_channels [1; 2; 3; 4; 5] (-2) =
     if -2 =? 0 then Raise ZeroDivisionError else Ok [].
Proof.
  split; [lia | apply (separate_channels_nonpositive [1; 2; 3; 4; 5] (-2)); lia].
Defined.
